(** * i3status, [src/print_mem.c]: the memory module

    A shallow embedding of [print_bytes_human], [memory_absolute] and
    [print_memory], and the properties of them that the specification
    states.

    Conventions of the embedding.
    - A C string is the [string] of the characters before its terminator.
    - [unsigned long] is [w] bits wide: a value is a [Z] in [0, 2^w) and every
      arithmetic result is reduced modulo [2^w].  The width is a parameter of
      each definition (64 on LP64 hosts, 32 on ILP32 hosts).
    - A [double] is the rational it denotes; every arithmetic operation is the
      exact operation followed by rounding to 53 significant bits, ties to
      even (IEEE 754 binary64, no excess precision).  The values that occur
      are far from the overflow and underflow thresholds.
    - An automatic variable that was never assigned is [None]; reading it is
      undefined behaviour, the outcome [Undefined]. *)

From Stdlib Require Import ZArith QArith Qround Qpower Bool List Lia.
From Stdlib Require Import Ascii String DecimalString.
Import ListNotations.

Local Open Scope string_scope.
Local Open Scope Z_scope.

(** ** The C library, as far as the module uses it *)

Module Libc.

Definition code (c : ascii) : Z := Z.of_N (N_of_ascii c).

(** [isspace] in the C locale: space, and the controls from \t to \r. *)
Definition isspace (c : ascii) : bool :=
  (code c =? 32) || ((9 <=? code c) && (code c <=? 13)).

Definition isdigit (c : ascii) : bool :=
  (48 <=? code c) && (code c <=? 57).

Definition digit_value (c : ascii) : Z := code c - 48.

(** [tolower] in the C locale. *)
Definition tolower (c : ascii) : ascii :=
  if (65 <=? code c) && (code c <=? 90)
  then ascii_of_N (N_of_ascii c + 32)
  else c.

(** [strcasecmp (a, b) == 0]. *)
Fixpoint strcasecmp_eq (a b : string) : bool :=
  match a, b with
  | EmptyString, EmptyString => true
  | String x a', String y b' =>
      Ascii.eqb (tolower x) (tolower y) && strcasecmp_eq a' b'
  | _, _ => false
  end.

Fixpoint skip_spaces (s : string) : string :=
  match s with
  | String c rest => if isspace c then skip_spaces rest else s
  | EmptyString => s
  end.

(** The digits at the head of [s], accumulated on [acc], and what follows
    them. *)
Fixpoint scan_digits (acc : Z) (s : string) : Z * string :=
  match s with
  | String c rest =>
      if isdigit c then scan_digits (acc * 10 + digit_value c) rest
      else (acc, s)
  | EmptyString => (acc, s)
  end.

Definition starts_with_digit (s : string) : bool :=
  match s with
  | String c _ => isdigit c
  | EmptyString => false
  end.

Definition ULONG_MAX (w : Z) : Z := 2 ^ w - 1.

(** [strtoul (nptr, &endptr, 10)]: the value and [endptr].  White space
    and one optional sign are skipped; without a digit nothing is consumed
    and the value is 0; a number above [ULONG_MAX] gives [ULONG_MAX]; a
    minus sign negates the value in [unsigned long]. *)
Definition strtoul (w : Z) (nptr : string) : Z * string :=
  let s := skip_spaces nptr in
  let '(negative, body) :=
    match s with
    | String "-" rest => (true, rest)
    | String "+" rest => (false, rest)
    | _ => (false, s)
    end in
  if starts_with_digit body then
    let '(n, endptr) := scan_digits 0 body in
    if ULONG_MAX w <? n then (ULONG_MAX w, endptr)
    else if negative then ((- n) mod 2 ^ w, endptr)
    else (n, endptr)
  else (0, nptr).

End Libc.

Definition BINARY_BASE : Z := 1024.

(** ** Arithmetic of [double] *)

Module Double.

Local Open Scope Q_scope.

(** The integer nearest to [q], the even one of two equally near. *)
Definition round_half_even (q : Q) : Z :=
  let f := Qfloor q in
  match Qcompare (q - inject_Z f) (1 # 2) with
  | Lt => f
  | Gt => (f + 1)%Z
  | Eq => if Z.even f then f else (f + 1)%Z
  end.

Definition pow2 (e : Z) : Q := 2 ^ e.

(** For [0 < q], the [e] with [2^e <= q < 2^(e+1)]. *)
Definition binary_exponent (q : Q) : Z :=
  let e0 := (Z.log2 (Qnum q) - Z.log2 (Zpos (Qden q)))%Z in
  if Qle_bool (pow2 e0) q then e0 else (e0 - 1)%Z.

Definition round_positive (q : Q) : Q :=
  let e := binary_exponent q in
  Qred (inject_Z (round_half_even (q * pow2 (52 - e))) * pow2 (e - 52)).

(** Rounding of a real to the nearest [double]. *)
Definition round (q : Q) : Q :=
  match Qcompare q 0 with
  | Eq => 0
  | Gt => round_positive q
  | Lt => - round_positive (- q)
  end.

(** The conversion of an [unsigned long] to [double]. *)
Definition of_ulong (n : Z) : Q := round (inject_Z n).

Definition mul (a b : Q) : Q := round (a * b).

(** [a / b] for a divisor that is not zero. *)
Definition div (a b : Q) : Q := round (a / b).

End Double.

(** ** Formatted output *)

Module Printf.

Definition decimal (n : Z) : string :=
  NilEmpty.string_of_uint (N.to_uint (Z.to_N n)).

Fixpoint zeros (n : nat) : string :=
  match n with
  | O => ""
  | S k => String "0" (zeros k)
  end.

Definition zero_pad (width : nat) (s : string) : string :=
  zeros (width - String.length s) ++ s.

(** The conversion [%.*f] of a [double] that is not negative: the value
    rounded to [precision] decimals, the nearest one and the even one of
    two equally near; a negative precision counts as omitted, that is 6;
    without decimals there is no point. *)
Definition format_f_abs (precision : Z) (q : Q) : string :=
  let p := if precision <? 0 then 6 else precision in
  let scaled := Double.round_half_even (q * inject_Z (10 ^ p)) in
  decimal (scaled / 10 ^ p) ++
  (if p =? 0 then ""
   else "." ++ zero_pad (Z.to_nat p) (decimal (scaled mod 10 ^ p))).

Definition format_f (precision : Z) (q : Q) : string :=
  match Qcompare q 0 with
  | Lt => "-" ++ format_f_abs precision (- q)
  | _ => format_f_abs precision q
  end.

End Printf.

(** ** [print_bytes_human] *)

Definition iec_symbols : list string := ["B"; "KiB"; "MiB"; "GiB"; "TiB"]%list.

Definition MAX_EXPONENT : nat := List.length iec_symbols - 1.

Definition symbol (exponent : nat) : string := nth exponent iec_symbols "".

(** The [while] loop from the state [(base, exponent)].  Each turn raises
    [exponent], and the loop is left once it reaches [MAX_EXPONENT]:
    [fuel] bounds the remaining turns. *)
Fixpoint scale_loop (fuel : nat) (unit : string) (base : Q) (exponent : nat)
  : Q * nat :=
  match fuel with
  | O => (base, exponent)
  | S fuel' =>
      if Qle_bool (inject_Z BINARY_BASE) base && (exponent <? MAX_EXPONENT)%nat
      then
        if Libc.strcasecmp_eq unit (symbol exponent) then (base, exponent)
        else scale_loop fuel' unit
               (Double.div base (inject_Z BINARY_BASE)) (S exponent)
      else (base, exponent)
  end.

(** The text that [print_bytes_human] writes at [outwalk]. *)
Definition print_bytes_human (bytes : Z) (unit : string) (decimals : Z)
  : string :=
  let '(base, exponent) :=
    scale_loop MAX_EXPONENT unit (Double.of_ulong bytes) 0 in
  Printf.format_f decimals base ++ " " ++ symbol exponent.

(** ** [memory_absolute] *)

Section Thresholds.

Variable w : Z.

(** [amount *= BINARY_BASE] in [unsigned long]. *)
Definition scale_up (amount : Z) : Z := (amount * BINARY_BASE) mod 2 ^ w.

(** The labels of the [switch], each falling through to the next. *)
Definition case_K (amount : Z) : Z := scale_up amount.
Definition case_M (amount : Z) : Z := case_K (scale_up amount).
Definition case_G (amount : Z) : Z := case_M (scale_up amount).
Definition case_T (amount : Z) : Z := case_G (scale_up amount).

Definition case_percent (mem_total amount : Z) : Z :=
  ((mem_total * amount) mod 2 ^ w) / 100.

Definition memory_absolute (mem_amount : string) (mem_total : Z) : Z :=
  let '(amount, endptr) := Libc.strtoul w mem_amount in
  let endptr := Libc.skip_spaces endptr in
  match endptr with
  | String "T" _ | String "t" _ => case_T amount
  | String "G" _ | String "g" _ => case_G amount
  | String "M" _ | String "m" _ => case_M amount
  | String "K" _ | String "k" _ => case_K amount
  | String "%" _ => case_percent mem_total amount
  | _ => amount
  end.

End Thresholds.

(** ** Outcomes *)

(** What a run does: a result, or undefined behaviour. *)
Inductive behaviour (A : Type) : Type :=
| Defined (a : A)
| Undefined.

Arguments Defined {A} a.
Arguments Undefined {A}.

Definition bind {A B : Type} (m : behaviour A) (k : A -> behaviour B)
  : behaviour B :=
  match m with
  | Defined a => k a
  | Undefined => Undefined
  end.

Notation "x <- m ;; k" := (bind m (fun x => k))
  (at level 61, m at next level, right associativity).

(** The value of an automatic variable. *)
Definition read {A : Type} (variable : option A) : behaviour A :=
  match variable with
  | Some a => Defined a
  | None => Undefined
  end.

(** Modelled from the spec: the macro [BEGINS_WITH] of [i3status.h] is not
    among the sources.  The specification has the tokens "matched by
    longest-prefix case-sensitive name", and the name of the macro says
    the same: it holds when [haystack] starts with the characters of
    [needle]. *)
Definition BEGINS_WITH (haystack needle : string) : bool :=
  String.prefix needle haystack.

Definition newline : ascii := ascii_of_N 10.

(** [s + n] on a string of at least [n] characters. *)
Fixpoint advance (n : nat) (s : string) : string :=
  match n, s with
  | S k, String _ rest => advance k rest
  | _, _ => s
  end.

(** ** The memory reader *)

(** The six counters of [print_memory], [None] until assigned. *)
Record counters : Type := {
  ram_total : option Z;
  ram_free : option Z;
  ram_available : option Z;
  ram_buffers : option Z;
  ram_cached : option Z;
  ram_shared : option Z
}.

Definition unassigned : counters :=
  {| ram_total := None; ram_free := None; ram_available := None;
     ram_buffers := None; ram_cached := None; ram_shared := None |}.

(** The host the module was compiled for, with what its kernel interface
    answers: the contents of [/proc/meminfo] ([None] when it cannot be
    opened), or the three [sysctlbyname] values ([None] for a failed
    call). *)
Inductive host : Type :=
| Linux (meminfo : option string)
| FreeBSD (hw_pagesize hw_physmem v_free_count : option Z)
| Unsupported.

(** The counters after a complete read, in bytes. *)
Record snapshot : Type := {
  total : Z;
  free : Z;
  available : Z;
  buffers : Z;
  cached : Z;
  shared : Z
}.

Inductive reading : Type :=
| ReadOk (s : snapshot)
| ReadError
| ReadUnavailable.

(** [fgets]: at most [room] characters of the stream, up to and including
    the first newline, and the rest of the stream. *)
Fixpoint read_line (room : nat) (stream : string) : string * string :=
  match room, stream with
  | S k, String c rest =>
      if Ascii.eqb c newline then (String c "", rest)
      else let '(line, rest') := read_line k rest in (String c line, rest')
  | _, _ => ("", stream)
  end.

Definition fgets (size : nat) (stream : string) : option (string * string) :=
  match stream with
  | EmptyString => None
  | _ => Some (read_line (size - 1) stream)
  end.

(** The lines that successive calls of [fgets (line, sizeof line, file)]
    return until the end of the stream. *)
Fixpoint lines_from (fuel : nat) (stream : string) : list string :=
  match fuel with
  | O => nil
  | S fuel' =>
      match fgets 128 stream with
      | None => nil
      | Some (line, rest) => line :: lines_from fuel' rest
      end
  end.

Definition file_lines (stream : string) : list string :=
  lines_from (String.length stream) stream.

Section Reader.

Variable w : Z.

Definition field (line label : string) : Z :=
  fst (Libc.strtoul w (advance (String.length label) line)).

(** The chain of tests on one line: the counters after the assignment,
    or [None] for [continue]. *)
Definition assign_field (c : counters) (line : string) : option counters :=
  if BEGINS_WITH line "MemTotal:" then
    Some {| ram_total := Some (field line "MemTotal:");
            ram_free := ram_free c;
            ram_available := ram_available c; ram_buffers := ram_buffers c;
            ram_cached := ram_cached c; ram_shared := ram_shared c |}
  else if BEGINS_WITH line "MemFree:" then
    Some {| ram_total := ram_total c;
            ram_free := Some (field line "MemFree:");
            ram_available := ram_available c; ram_buffers := ram_buffers c;
            ram_cached := ram_cached c; ram_shared := ram_shared c |}
  else if BEGINS_WITH line "MemAvailable:" then
    Some {| ram_total := ram_total c; ram_free := ram_free c;
            ram_available := Some (field line "MemAvailable:");
            ram_buffers := ram_buffers c;
            ram_cached := ram_cached c; ram_shared := ram_shared c |}
  else if BEGINS_WITH line "Buffers:" then
    Some {| ram_total := ram_total c; ram_free := ram_free c;
            ram_available := ram_available c;
            ram_buffers := Some (field line "Buffers:");
            ram_cached := ram_cached c; ram_shared := ram_shared c |}
  else if BEGINS_WITH line "Cached:" then
    Some {| ram_total := ram_total c; ram_free := ram_free c;
            ram_available := ram_available c; ram_buffers := ram_buffers c;
            ram_cached := Some (field line "Cached:");
            ram_shared := ram_shared c |}
  else if BEGINS_WITH line "Shmem:" then
    Some {| ram_total := ram_total c; ram_free := ram_free c;
            ram_available := ram_available c; ram_buffers := ram_buffers c;
            ram_cached := ram_cached c;
            ram_shared := Some (field line "Shmem:") |}
  else None.

(** The [for] loop over the lines of the file, from the state
    [(c, unread_fields)]. *)
Fixpoint read_fields (lines : list string) (c : counters) (unread_fields : Z)
  : counters * Z :=
  match lines with
  | nil => (c, unread_fields)
  | line :: lines' =>
      match assign_field c line with
      | None => read_fields lines' c unread_fields
      | Some c' =>
          let unread_fields := unread_fields - 1 in
          if unread_fields =? 0 then (c', unread_fields)
          else read_fields lines' c' unread_fields
      end
  end.

(** The Linux reader up to the test of [unread_fields]: the counters, or
    [None] for [goto error]. *)
Definition read_meminfo (meminfo : option string) : option counters :=
  match meminfo with
  | None => None
  | Some stream =>
      let '(c, unread_fields) :=
        read_fields (file_lines stream) unassigned 6 in
      if 0 <? unread_fields then None else Some c
  end.

(** [x *= 1024UL] on a counter. *)
Definition to_bytes (x : option Z) : behaviour Z :=
  kb <- read x ;; Defined ((kb * 1024) mod 2 ^ w).

Definition convert (c : counters) : behaviour snapshot :=
  ram_total <- to_bytes (ram_total c) ;;
  ram_free <- to_bytes (ram_free c) ;;
  ram_available <- to_bytes (ram_available c) ;;
  ram_buffers <- to_bytes (ram_buffers c) ;;
  ram_cached <- to_bytes (ram_cached c) ;;
  ram_shared <- to_bytes (ram_shared c) ;;
  Defined {| total := ram_total; free := ram_free;
             available := ram_available; buffers := ram_buffers;
             cached := ram_cached; shared := ram_shared |}.

(** The conversion of an unsigned value to [long]. *)
Definition to_long (x : Z) : Z :=
  let y := x mod 2 ^ w in
  if y <? 2 ^ (w - 1) then y else y - 2 ^ w.

(** A product of two [long]: overflow is undefined. *)
Definition long_mul (a b : Z) : behaviour Z :=
  let p := a * b in
  if (- 2 ^ (w - 1) <=? p) && (p <? 2 ^ (w - 1)) then Defined p
  else Undefined.

(** The FreeBSD reader: the three queries in their order. *)
Definition read_sysctl (hw_pagesize hw_physmem v_free_count : option Z)
  : behaviour reading :=
  match hw_pagesize with
  | None => Defined ReadError
  | Some page_size =>
      match hw_physmem with
      | None => Defined ReadError
      | Some _ram_total =>
          match v_free_count with
          | None => Defined ReadError
          | Some _ram_free =>
              ram_free <- long_mul (to_long _ram_free) (to_long page_size) ;;
              Defined (ReadOk
                {| total := to_long _ram_total mod 2 ^ w;
                   free := ram_free mod 2 ^ w;
                   available := 0; buffers := 0;
                   cached := 0; shared := 0 |})
          end
      end
  end.

(** The part of [print_memory] under the platform conditionals. *)
Definition read_memory (h : host) : behaviour reading :=
  match h with
  | Linux meminfo =>
      match read_meminfo meminfo with
      | Some c => s <- convert c ;; Defined (ReadOk s)
      | None => Defined ReadError
      end
  | FreeBSD hw_pagesize hw_physmem v_free_count =>
      read_sysctl hw_pagesize hw_physmem v_free_count
  | Unsupported => Defined ReadUnavailable
  end.

End Reader.

(** ** [print_memory] *)

(** What one call hands to the output: the text given to
    [OUTPUT_FULL_TEXT], the colour name given to [START_COLOR] if any, and
    the text written to [stderr]. *)
Record output : Type := {
  full_text : string;
  color : option string;
  diagnostic : string
}.

Definition error_output : output :=
  {| full_text := "can't read memory";
     color := None;
     diagnostic := "i3status: Cannot read system memory" ++ String newline "" |}.

Definition unavailable_output : output :=
  {| full_text := "";
     color := None;
     diagnostic :=
       "i3status: Memory status information is not supported on this system"
       ++ String newline "" |}.

Section Formatter.

(** The width of [unsigned long]. *)
Variable w : Z.

(** The global [pct_mark]. *)
Variable pct_mark : string.

(** What the macros [START_COLOR] and [END_COLOR] of [i3status.h] write
    to the buffer, which depends on the output format. *)
Variable start_color : string -> string.
Variable end_color : string.

(** How [printf] writes an infinity and a NaN, which the implementation
    defines. *)
Variable inf_text nan_text : string.

(** [a - b] in [unsigned long]. *)
Definition sub (a b : Z) : Z := (a - b) mod 2 ^ w.

(** [ram_used] after its two tests: assigned or not. *)
Definition used_memory (memory_used_method : string) (s : snapshot)
  : option Z :=
  if BEGINS_WITH memory_used_method "memavailable" then
    Some (sub (total s) (available s))
  else if BEGINS_WITH memory_used_method "classical" then
    Some (sub (sub (sub (total s) (free s)) (buffers s)) (cached s))
  else None.

(** One threshold test on [output_color]. *)
Definition check_threshold (threshold : option string) (name : string)
    (s : snapshot) (output_color : option string) : option string :=
  match threshold with
  | Some spec =>
      if available s <? memory_absolute w spec (total s) then Some name
      else output_color
  | None => output_color
  end.

Definition select_color (threshold_degraded threshold_critical : option string)
    (s : snapshot) : option string :=
  let output_color := None in
  let output_color :=
    check_threshold threshold_degraded "color_degraded" s output_color in
  let output_color :=
    check_threshold threshold_critical "color_bad" s output_color in
  output_color.

Definition select_format (output_color : option string)
    (format : string) (format_degraded : option string) : string :=
  match output_color with
  | Some _ =>
      match format_degraded with
      | Some f => f
      | None => format
      end
  | None => format
  end.

(** [sprintf (outwalk, "%.01f%s", 100.0 * part / whole, pct_mark)]. *)
Definition print_percentage (part whole : Z) : string :=
  (if whole =? 0 then if part =? 0 then nan_text else inf_text
   else
     Printf.format_f 1
       (Double.div (Double.mul (inject_Z 100) (Double.of_ulong part))
                   (Double.of_ulong whole)))
  ++ pct_mark.

Section Walk.

Variable s : snapshot.
Variable ram_used : option Z.
Variable unit : string.
Variable decimals : Z.

(** The branches for [*walk == '%'], with [after] for [walk + 1]: the
    text written at [outwalk] and the number of characters added to
    [walk]. *)
Definition placeholder (after : string) : behaviour (string * nat) :=
  if BEGINS_WITH after "total" then
    Defined (print_bytes_human (total s) unit decimals,
             String.length "total")
  else if BEGINS_WITH after "used" then
    used <- read ram_used ;;
    Defined (print_bytes_human used unit decimals, String.length "used")
  else if BEGINS_WITH after "free" then
    Defined (print_bytes_human (free s) unit decimals,
             String.length "free")
  else if BEGINS_WITH after "available" then
    Defined (print_bytes_human (available s) unit decimals,
             String.length "available")
  else if BEGINS_WITH after "shared" then
    Defined (print_bytes_human (shared s) unit decimals,
             String.length "shared")
  else if BEGINS_WITH after "percentage_free" then
    Defined (print_percentage (free s) (total s),
             String.length "percentage_free")
  else if BEGINS_WITH after "percentage_available" then
    Defined (print_percentage (available s) (total s),
             String.length "percentage_available")
  else if BEGINS_WITH after "percentage_used" then
    used <- read ram_used ;;
    Defined (print_percentage used (total s),
             String.length "percentage_used")
  else if BEGINS_WITH after "percentage_shared" then
    Defined (print_percentage (shared s) (total s),
             String.length "percentage_shared")
  else Defined ("%", O).

(** The [for] loop over the format, as the text written to the buffer.
    [walk] is the rest of the format and [skip] the number of its
    characters that [walk += strlen (token)] has still to pass. *)
Fixpoint walk_format (skip : nat) (walk : string) : behaviour string :=
  match walk with
  | EmptyString => Defined ""
  | String c rest =>
      match skip with
      | S skip' => walk_format skip' rest
      | O =>
          if Ascii.eqb c "%" then
            step <- placeholder rest ;;
            text <- walk_format (snd step) rest ;;
            Defined (fst step ++ text)
          else
            text <- walk_format O rest ;;
            Defined (String c text)
      end
  end.

End Walk.

Definition print_memory (h : host) (format : string)
    (format_degraded threshold_degraded threshold_critical : option string)
    (memory_used_method unit : string) (decimals : Z) : behaviour output :=
  r <- read_memory w h ;;
  match r with
  | ReadUnavailable => Defined unavailable_output
  | ReadError => Defined error_output
  | ReadOk s =>
      let ram_used := used_memory memory_used_method s in
      let output_color :=
        select_color threshold_degraded threshold_critical s in
      let selected_format :=
        select_format output_color format format_degraded in
      text <- walk_format s ram_used unit decimals O selected_format ;;
      Defined
        {| full_text :=
             match output_color with
             | Some name => start_color name ++ text ++ end_color
             | None => text
             end;
           color := output_color;
           diagnostic := "" |}
  end.

End Formatter.

(** * The vocabulary of the properties *)

Fixpoint all_chars (p : ascii -> bool) (s : string) : bool :=
  match s with
  | EmptyString => true
  | String c rest => p c && all_chars p rest
  end.

(** The number that a string of decimal digits denotes. *)
Fixpoint decimal_value (ds : string) : Z :=
  match ds with
  | EmptyString => 0
  | String d rest =>
      Libc.digit_value d * 10 ^ Z.of_nat (String.length rest)
      + decimal_value rest
  end.

(** The threshold specifications of the form digits, spaces, suffix. *)
Definition threshold_spec (ds ws : string) (suffix : ascii) (rest : string)
  : string :=
  ds ++ ws ++ String suffix rest.

(** The number of factors 1024 that a suffix stands for. *)
Definition suffix_power (suffix : ascii) : option Z :=
  match suffix with
  | "K" | "k" => Some 1
  | "M" | "m" => Some 2
  | "G" | "g" => Some 3
  | "T" | "t" => Some 4
  | _ => None
  end%char.

(** A threshold is configured and the available memory is below it. *)
Definition below (w : Z) (threshold : option string) (s : snapshot) : Prop :=
  exists spec,
    threshold = Some spec /\ available s < memory_absolute w spec (total s).

(** The nine placeholders. *)
Definition tokens : list string :=
  ["total"; "used"; "free"; "available"; "shared"; "percentage_free";
   "percentage_available"; "percentage_used"; "percentage_shared"]%list.

(** No placeholder starts at the head of [after]. *)
Definition no_token (after : string) : Prop :=
  forall token, In token tokens -> forall tail, after <> token ++ tail.

(** The value after [e] divisions by 1024. *)
Definition divided (bytes : Z) (e : nat) : Q :=
  Nat.iter e (fun base => Double.div base (inject_Z BINARY_BASE))
    (Double.of_ulong bytes).

(** At the exponent [e] the loop divides once more: the value is at least
    1024, a larger symbol exists, and the unit asked for is not the symbol
    of [e]. *)
Definition goes_on (bytes : Z) (unit : string) (e : nat) : Prop :=
  (inject_Z 1024 <= divided bytes e)%Q /\
  (e < MAX_EXPONENT)%nat /\
  Libc.strcasecmp_eq unit (symbol e) = false.

(** The values that a positive [double] can have, as far as the model
    goes: 53 bits and a binary exponent. *)
Definition representable (q : Q) : Prop :=
  exists m k, (0 < m < 2 ^ 53)%Z /\ (q == inject_Z m * Double.pow2 k)%Q.

(** The values that an [unsigned long] turns into and that a division by
    1024 keeps: zero, or a positive [double]. *)
Definition plain (q : Q) : Prop :=
  (q == 0 \/ (0 < q /\ representable q))%Q.

(** The labels that the reader looks for. *)
Definition labels : list string :=
  ["MemTotal:"; "MemFree:"; "MemAvailable:"; "Buffers:"; "Cached:";
   "Shmem:"]%list.

Definition labelled (line : string) : bool :=
  existsb (BEGINS_WITH line) labels.

(** The number of lines that start with a label, each line counted. *)
Definition matching_lines (lines : list string) : nat :=
  List.length (filter labelled lines).

(** The counter that the reader assigns on a line with [label]. *)
Definition counter_of (label : string) (c : counters) : option Z :=
  if String.eqb label "MemTotal:" then ram_total c
  else if String.eqb label "MemFree:" then ram_free c
  else if String.eqb label "MemAvailable:" then ram_available c
  else if String.eqb label "Buffers:" then ram_buffers c
  else if String.eqb label "Cached:" then ram_cached c
  else ram_shared c.

(** No line starts with [label]. *)
Definition never_seen (label : string) (lines : list string) : Prop :=
  forall line, In line lines -> BEGINS_WITH line label = false.

(** The reader fails: the file cannot be opened or holds fewer than six
    lines that start with a label, or a query of the kernel fails. *)
Definition read_fails (h : host) : Prop :=
  match h with
  | Linux None => True
  | Linux (Some stream) => (matching_lines (file_lines stream) < 6)%nat
  | FreeBSD hw_pagesize hw_physmem v_free_count =>
      hw_pagesize = None \/ hw_physmem = None \/ v_free_count = None
  | Unsupported => False
  end.

(** Six lines, all of them with the label of the total. *)
Definition total_six_times : string :=
  let line := "MemTotal: 1 kB" ++ String newline "" in
  line ++ line ++ line ++ line ++ line ++ line.

(** What may follow the number of a threshold that has no unit: nothing,
    or a character that is no digit, no white space and no label of the
    [switch]. *)
Definition unitless (tail : string) : Prop :=
  match tail with
  | EmptyString => True
  | String c _ =>
      Libc.isspace c = false /\ Libc.isdigit c = false /\
      suffix_power c = None /\ c <> "%"%char
  end.

(** The threshold holds no number: after the white space comes a sign
    that no digit follows, or something that is neither a sign nor a
    digit. *)
Definition numberless (spec : string) : Prop :=
  exists ws body,
    spec = ws ++ body /\
    all_chars Libc.isspace ws = true /\
    match body with
    | EmptyString => True
    | String c tail =>
        Libc.isspace c = false /\
        if (Ascii.eqb c "+" || Ascii.eqb c "-")%bool
        then Libc.starts_with_digit tail = false
        else Libc.isdigit c = false
    end.

(** The format holds no percent sign. *)
Definition literal (text : string) : bool :=
  all_chars (fun c => negb (Ascii.eqb c "%")) text.

(** [needle] occurs in [hay]. *)
Definition mentions (needle hay : string) : Prop :=
  exists pre post, hay = pre ++ needle ++ post.

(** The text that stands for a placeholder. *)
Definition token_value (pct_mark inf_text nan_text : string) (s : snapshot)
    (ram_used : option Z) (unit : string) (decimals : Z) (token : string)
  : behaviour string :=
  if String.eqb token "total" then
    Defined (print_bytes_human (total s) unit decimals)
  else if String.eqb token "used" then
    used <- read ram_used ;; Defined (print_bytes_human used unit decimals)
  else if String.eqb token "free" then
    Defined (print_bytes_human (free s) unit decimals)
  else if String.eqb token "available" then
    Defined (print_bytes_human (available s) unit decimals)
  else if String.eqb token "shared" then
    Defined (print_bytes_human (shared s) unit decimals)
  else if String.eqb token "percentage_free" then
    Defined (print_percentage pct_mark inf_text nan_text (free s) (total s))
  else if String.eqb token "percentage_available" then
    Defined (print_percentage pct_mark inf_text nan_text
               (available s) (total s))
  else if String.eqb token "percentage_used" then
    used <- read ram_used ;;
    Defined (print_percentage pct_mark inf_text nan_text used (total s))
  else
    Defined (print_percentage pct_mark inf_text nan_text (shared s) (total s)).

(** [line] is the last of [lines] that starts with [label]. *)
Definition last_with (label : string) (lines : list string) (line : string)
  : Prop :=
  exists pre post,
    lines = (pre ++ line :: post)%list /\
    BEGINS_WITH line label = true /\
    never_seen label post.

(** * Properties *)

(** ** Strings of digits and of spaces *)

Lemma decimal_value_nonneg ds :
  all_chars Libc.isdigit ds = true -> 0 <= decimal_value ds.
Proof.
  induction ds as [|d ds IH]; simpl; [lia|].
  intros H. apply andb_prop in H. destruct H as [Hd Hds].
  specialize (IH Hds).
  unfold Libc.isdigit in Hd. unfold Libc.digit_value.
  assert (0 <= 10 ^ Z.of_nat (String.length ds)) by (apply Z.pow_nonneg; lia).
  nia.
Qed.

Lemma space_not_digit c : Libc.isspace c = true -> Libc.isdigit c = false.
Proof.
  unfold Libc.isspace, Libc.isdigit. intros H.
  destruct (48 <=? Libc.code c) eqn:E; [|reflexivity].
  apply Z.leb_le in E. simpl.
  apply orb_prop in H. destruct H as [H|H].
  - apply Z.eqb_eq in H. lia.
  - apply andb_prop in H. destruct H as [_ H]. apply Z.leb_le in H. lia.
Qed.

Lemma digit_not_space c : Libc.isdigit c = true -> Libc.isspace c = false.
Proof.
  intros H. destruct (Libc.isspace c) eqn:E; [|reflexivity].
  apply space_not_digit in E. congruence.
Qed.

Lemma scan_digits_app ds tail acc :
  all_chars Libc.isdigit ds = true ->
  Libc.starts_with_digit tail = false ->
  Libc.scan_digits acc (ds ++ tail)
  = (acc * 10 ^ Z.of_nat (String.length ds) + decimal_value ds, tail).
Proof.
  revert acc. induction ds as [|d ds IH]; intros acc Hds Htail.
  - simpl. rewrite Z.mul_1_r, Z.add_0_r.
    destruct tail as [|c tail]; [reflexivity|].
    simpl in *. rewrite Htail. reflexivity.
  - simpl in Hds. apply andb_prop in Hds. destruct Hds as [Hd Hds].
    cbn [append Libc.scan_digits]. rewrite Hd, (IH _ Hds Htail).
    f_equal. cbn [String.length decimal_value].
    rewrite Nat2Z.inj_succ, Z.pow_succ_r by lia. ring.
Qed.

Lemma skip_spaces_app ws tail :
  all_chars Libc.isspace ws = true ->
  Libc.skip_spaces (ws ++ tail) = Libc.skip_spaces tail.
Proof.
  induction ws as [|c ws IH]; intros H; [reflexivity|].
  simpl in H. apply andb_prop in H. destruct H as [Hc Hws].
  cbn [append Libc.skip_spaces]. rewrite Hc. auto.
Qed.

Lemma skip_spaces_char c rest :
  Libc.isspace c = false ->
  Libc.skip_spaces (String c rest) = String c rest.
Proof. intros H. simpl. rewrite H. reflexivity. Qed.

(** [strtoul] on a string of digits and what follows it: the number,
    saturated, and the position after the digits. *)
Lemma strtoul_digits w ds tail :
  ds <> "" ->
  all_chars Libc.isdigit ds = true ->
  Libc.starts_with_digit tail = false ->
  Libc.strtoul w (ds ++ tail)
  = (Z.min (decimal_value ds) (Libc.ULONG_MAX w), tail).
Proof.
  intros Hne Hds Htail.
  destruct ds as [|d ds]; [congruence|].
  pose proof (decimal_value_nonneg _ Hds) as Hpos.
  assert (Hd : Libc.isdigit d = true)
    by (simpl in Hds; apply andb_prop in Hds; tauto).
  unfold Libc.strtoul.
  change (String d ds ++ tail) with (String d (ds ++ tail)).
  rewrite skip_spaces_char by (apply digit_not_space; exact Hd).
  assert (Hsign :
    match String d (ds ++ tail) with
    | String "-" rest => (true, rest)
    | String "+" rest => (false, rest)
    | _ => (false, String d (ds ++ tail))
    end = (false, String d (ds ++ tail))).
  { destruct d as [[|] [|] [|] [|] [|] [|] [|] [|]];
      try reflexivity; vm_compute in Hd; discriminate. }
  rewrite Hsign.
  replace (Libc.starts_with_digit (String d (ds ++ tail))) with true
    by (cbn [Libc.starts_with_digit]; congruence).
  change (String d (ds ++ tail)) with (String d ds ++ tail).
  rewrite (scan_digits_app _ _ _ Hds Htail). rewrite Z.mul_0_l, Z.add_0_l.
  destruct (Libc.ULONG_MAX w <? decimal_value (String d ds)) eqn:E.
  - apply Z.ltb_lt in E. rewrite Z.min_r by lia. reflexivity.
  - apply Z.ltb_ge in E. rewrite Z.min_l by lia. reflexivity.
Qed.

Lemma memory_absolute_parse w ds ws suffix rest mem_total :
  ds <> "" ->
  all_chars Libc.isdigit ds = true ->
  all_chars Libc.isspace ws = true ->
  Libc.isspace suffix = false ->
  Libc.isdigit suffix = false ->
  memory_absolute w (threshold_spec ds ws suffix rest) mem_total
  = let amount := Z.min (decimal_value ds) (Libc.ULONG_MAX w) in
    match suffix with
    | "T" | "t" => case_T w amount
    | "G" | "g" => case_G w amount
    | "M" | "m" => case_M w amount
    | "K" | "k" => case_K w amount
    | "%" => case_percent w mem_total amount
    | _ => amount
    end%char.
Proof.
  intros Hne Hds Hws Hsp Hdg.
  unfold memory_absolute, threshold_spec.
  rewrite strtoul_digits; trivial.
  - cbv beta iota zeta.
    rewrite skip_spaces_app, skip_spaces_char by assumption. reflexivity.
  - destruct ws as [|c ws]; cbn [append Libc.starts_with_digit]; trivial.
    simpl in Hws. apply andb_prop in Hws. apply space_not_digit. tauto.
Qed.

(** ** Thresholds *)

(** The multiplications of a label of the [switch], taken together. *)
Ltac cascade :=
  unfold case_T, case_G, case_M, case_K, scale_up, BINARY_BASE;
  repeat (rewrite Zmult_mod_idemp_l || rewrite <- Z.mul_assoc);
  match goal with
  | |- _ mod ?m = _ mod ?m => apply (f_equal (fun x => x mod m)); ring
  end.

Lemma case_K_value w a : case_K w a = (a * 1024 ^ 1) mod 2 ^ w.
Proof. cascade. Qed.

Lemma case_M_value w a : case_M w a = (a * 1024 ^ 2) mod 2 ^ w.
Proof. cascade. Qed.

Lemma case_G_value w a : case_G w a = (a * 1024 ^ 3) mod 2 ^ w.
Proof. cascade. Qed.

Lemma case_T_value w a : case_T w a = (a * 1024 ^ 4) mod 2 ^ w.
Proof. cascade. Qed.

Lemma small_mod w n : 0 <= n < 2 ^ w -> n mod 2 ^ w = n.
Proof. intros H. apply Z.mod_small. exact H. Qed.

Lemma suffix_power_cases suffix k :
  suffix_power suffix = Some k ->
  (k = 1 /\ (suffix = "K" \/ suffix = "k"))%char \/
  (k = 2 /\ (suffix = "M" \/ suffix = "m"))%char \/
  (k = 3 /\ (suffix = "G" \/ suffix = "g"))%char \/
  (k = 4 /\ (suffix = "T" \/ suffix = "t"))%char.
Proof.
  destruct suffix as [[|] [|] [|] [|] [|] [|] [|] [|]];
    cbn; intros H; try discriminate H;
    injection H as <-; tauto.
Qed.

Lemma suffixed_value w ds ws suffix rest mem_total k :
  ds <> "" ->
  all_chars Libc.isdigit ds = true ->
  all_chars Libc.isspace ws = true ->
  suffix_power suffix = Some k ->
  memory_absolute w (threshold_spec ds ws suffix rest) mem_total
  = (Z.min (decimal_value ds) (Libc.ULONG_MAX w) * 1024 ^ k) mod 2 ^ w.
Proof.
  intros Hne Hds Hws Hk.
  apply suffix_power_cases in Hk.
  destruct Hk as [[-> [-> | ->]] | [[-> [-> | ->]] | [[-> [-> | ->]]
    | [-> [-> | ->]]]]];
    rewrite memory_absolute_parse by (trivial; reflexivity);
    cbv beta iota zeta;
    first [ apply case_K_value | apply case_M_value
          | apply case_G_value | apply case_T_value ].
Qed.

(** C1, as the code has it.  For a threshold made of the digits of a number
    [N], optional white space and a unit suffix, [memory_absolute] returns
    [N] (at most [ULONG_MAX]) times 1024 for k, K, times 1024^2 for m, M,
    times 1024^3 for g, G and times 1024^4 for t, T, the product taken in
    [unsigned long], that is modulo [2^w]; it is the product itself
    whenever that is below [2^w]. *)
Theorem memory_absolute_suffix w ds ws suffix rest mem_total k :
  ds <> "" ->
  all_chars Libc.isdigit ds = true ->
  all_chars Libc.isspace ws = true ->
  suffix_power suffix = Some k ->
  let N := decimal_value ds in
  let resolved :=
    memory_absolute w (threshold_spec ds ws suffix rest) mem_total in
  resolved = (Z.min N (Libc.ULONG_MAX w) * 1024 ^ k) mod 2 ^ w /\
  (N * 1024 ^ k < 2 ^ w -> resolved = N * 1024 ^ k).
Proof.
  intros Hne Hds Hws Hk N resolved.
  assert (E : resolved
              = (Z.min N (Libc.ULONG_MAX w) * 1024 ^ k) mod 2 ^ w)
    by (apply suffixed_value; assumption).
  split; [exact E|].
  intros Hfit. rewrite E.
  pose proof (decimal_value_nonneg _ Hds) as HN. fold N in HN.
  assert (Hp : 1 <= 1024 ^ k).
  { apply suffix_power_cases in Hk.
    destruct Hk as [[-> _] | [[-> _] | [[-> _] | [-> _]]]]; lia. }
  unfold Libc.ULONG_MAX. rewrite Z.min_l by nia.
  apply small_mod. nia.
Qed.

Lemma memory_absolute_suffix_witness :
  let resolved := memory_absolute 64 (threshold_spec "2" " " "G" "") 0 in
  resolved
  = (Z.min (decimal_value "2") (Libc.ULONG_MAX 64) * 1024 ^ 3) mod 2 ^ 64 /\
  (decimal_value "2" * 1024 ^ 3 < 2 ^ 64
   -> resolved = decimal_value "2" * 1024 ^ 3).
Proof.
  apply (memory_absolute_suffix 64 "2" " " "G" "" 0 3);
    [discriminate | reflexivity | reflexivity | reflexivity].
Defined.

(** C1 as stated fails: the threshold 1M is 1024^2 bytes, not 1024^3; and
    a product that leaves [unsigned long] wraps, as for 2^54 K with 64
    bits. *)
Lemma mebi_is_not_1024_cubed :
  (memory_absolute 64 "1M" 0 = 1024 ^ 2 /\
   memory_absolute 64 "1M" 0 <> 1 * 1024 ^ 3) /\
  (memory_absolute 64 "18014398509481984K" 0 = 0 /\
   memory_absolute 64 "18014398509481984K" 0 <> 18014398509481984 * 1024).
Proof. repeat split; try reflexivity; discriminate. Qed.

(** C5, as the code has it.  For a threshold made of the digits of a number
    [N], optional white space and a percent sign, [memory_absolute] returns
    the product of the total and [N] (at most [ULONG_MAX]), taken in
    [unsigned long], that is modulo [2^w], and divided by 100 with
    truncation; it is [total * N / 100] whenever [total * N] is below
    [2^w]. *)
Theorem memory_absolute_percent w ds ws rest mem_total :
  ds <> "" ->
  all_chars Libc.isdigit ds = true ->
  all_chars Libc.isspace ws = true ->
  let N := decimal_value ds in
  let resolved :=
    memory_absolute w (threshold_spec ds ws "%" rest) mem_total in
  resolved = ((mem_total * Z.min N (Libc.ULONG_MAX w)) mod 2 ^ w) / 100 /\
  (0 <= mem_total -> mem_total * N < 2 ^ w ->
   resolved = mem_total * N / 100).
Proof.
  intros Hne Hds Hws N resolved.
  assert (E : resolved
              = ((mem_total * Z.min N (Libc.ULONG_MAX w)) mod 2 ^ w) / 100).
  { unfold resolved.
    rewrite memory_absolute_parse by (trivial; reflexivity).
    reflexivity. }
  split; [exact E|].
  intros Htotal Hfit. rewrite E.
  pose proof (decimal_value_nonneg _ Hds) as HN. fold N in HN.
  destruct (Z.eq_dec mem_total 0) as [-> | Hnz].
  - rewrite !Z.mul_0_l, Zmod_0_l. reflexivity.
  - unfold Libc.ULONG_MAX. rewrite Z.min_l by nia.
    rewrite small_mod by nia. reflexivity.
Qed.

Lemma memory_absolute_percent_witness :
  let resolved := memory_absolute 64 (threshold_spec "10" " " "%" "") 1000 in
  resolved
  = ((1000 * Z.min (decimal_value "10") (Libc.ULONG_MAX 64)) mod 2 ^ 64) / 100
  /\
  (0 <= 1000 -> 1000 * decimal_value "10" < 2 ^ 64 ->
   resolved = 1000 * decimal_value "10" / 100).
Proof.
  apply (memory_absolute_percent 64 "10" " " "" 1000);
    [discriminate | reflexivity | reflexivity].
Defined.

(** C5 as stated fails where the product leaves [unsigned long]: half of
    2 GiB on a host with 32 bits, and 2% of 2^63 bytes on one with 64. *)
Lemma percent_product_wraps :
  (memory_absolute 32 "50%" 2147483648 = 0 /\
   2147483648 * 50 / 100 = 1073741824) /\
  (memory_absolute 64 "2%" (2 ^ 63) = 0 /\
   memory_absolute 64 "2%" (2 ^ 63) <> 2 ^ 63 * 2 / 100).
Proof. repeat split; try reflexivity. discriminate. Qed.

(** ** The colour state and the choice of the format *)

Lemma check_threshold_below w threshold name s output_color :
  below w threshold s ->
  check_threshold w threshold name s output_color = Some name.
Proof.
  intros [spec [-> H]]. unfold check_threshold.
  apply Z.ltb_lt in H. rewrite H. reflexivity.
Qed.

Lemma check_threshold_not_below w threshold name s output_color :
  ~ below w threshold s ->
  check_threshold w threshold name s output_color = output_color.
Proof.
  intros H. unfold check_threshold.
  destruct threshold as [spec|]; [|reflexivity].
  destruct (available s <? memory_absolute w spec (total s)) eqn:E;
    [|reflexivity].
  exfalso. apply H. exists spec. apply Z.ltb_lt in E. auto.
Qed.

Lemma below_dec w threshold s :
  below w threshold s \/ ~ below w threshold s.
Proof.
  destruct threshold as [spec|].
  - destruct (Z_lt_dec (available s) (memory_absolute w spec (total s)))
      as [H|H].
    + left. exists spec. auto.
    + right. intros [spec' [E H']]. injection E as <-. contradiction.
  - right. intros [spec [E _]]. discriminate.
Qed.

Lemma select_color_critical w threshold_degraded threshold_critical s :
  below w threshold_critical s ->
  select_color w threshold_degraded threshold_critical s = Some "color_bad".
Proof. intros H. apply check_threshold_below. exact H. Qed.

Lemma select_color_degraded w threshold_degraded threshold_critical s :
  below w threshold_degraded s ->
  ~ below w threshold_critical s ->
  select_color w threshold_degraded threshold_critical s
  = Some "color_degraded".
Proof.
  intros Hd Hc. unfold select_color.
  rewrite check_threshold_not_below by exact Hc.
  apply check_threshold_below. exact Hd.
Qed.

Lemma select_color_normal w threshold_degraded threshold_critical s :
  ~ below w threshold_degraded s ->
  ~ below w threshold_critical s ->
  select_color w threshold_degraded threshold_critical s = None.
Proof.
  intros Hd Hc. unfold select_color.
  rewrite !check_threshold_not_below by assumption. reflexivity.
Qed.

Lemma select_color_range w threshold_degraded threshold_critical s :
  let state := select_color w threshold_degraded threshold_critical s in
  state = None \/ state = Some "color_degraded" \/ state = Some "color_bad".
Proof.
  cbv zeta.
  destruct (below_dec w threshold_critical s) as [C|C].
  - rewrite select_color_critical by exact C. auto.
  - destruct (below_dec w threshold_degraded s) as [D|D].
    + rewrite select_color_degraded by assumption. auto.
    + rewrite select_color_normal by assumption. auto.
Qed.

(** C3.  The colour is critical when the critical threshold is configured
    and the available memory is below it, whatever the degraded test says;
    otherwise degraded when the degraded threshold is configured and the
    available memory is below it; otherwise there is none.  A threshold
    that is not configured is never below: its test is skipped.  With both
    configured, available memory below the degraded threshold and at or
    above the critical one gives degraded, and below both gives critical. *)
Theorem color_classification w threshold_degraded threshold_critical s :
  let state := select_color w threshold_degraded threshold_critical s in
  (below w threshold_critical s -> state = Some "color_bad") /\
  (below w threshold_degraded s -> ~ below w threshold_critical s ->
   state = Some "color_degraded") /\
  (~ below w threshold_degraded s -> ~ below w threshold_critical s ->
   state = None) /\
  (~ below w None s) /\
  (forall degraded critical,
     threshold_degraded = Some degraded ->
     threshold_critical = Some critical ->
     available s < memory_absolute w degraded (total s) ->
     (memory_absolute w critical (total s) <= available s ->
      state = Some "color_degraded") /\
     (available s < memory_absolute w critical (total s) ->
      state = Some "color_bad")).
Proof.
  cbv zeta. repeat split.
  - apply select_color_critical.
  - apply select_color_degraded.
  - apply select_color_normal.
  - intros [spec [E _]]. discriminate.
  - intros Hc. apply select_color_degraded.
    + exists degraded. auto.
    + intros [spec [E Hlt]]. subst threshold_critical.
      injection E as <-. lia.
  - intros Hc. apply select_color_critical. exists critical. auto.
Qed.

Lemma color_classification_witness :
  select_color 64 (Some "50%") (Some "1K")
    {| total := 4096; free := 0; available := 1500;
       buffers := 0; cached := 0; shared := 0 |}
  = Some "color_degraded".
Proof.
  apply (color_classification 64 (Some "50%") (Some "1K")
           {| total := 4096; free := 0; available := 1500;
              buffers := 0; cached := 0; shared := 0 |}).
  - exists "50%". split; [reflexivity | vm_compute; reflexivity].
  - intros [spec [E H]]. injection E as <-. vm_compute in H. discriminate.
Defined.

Lemma print_memory_rendered w pct_mark start_color end_color inf_text
    nan_text h s format format_degraded threshold_degraded
    threshold_critical memory_used_method unit decimals :
  read_memory w h = Defined (ReadOk s) ->
  let state := select_color w threshold_degraded threshold_critical s in
  print_memory w pct_mark start_color end_color inf_text nan_text
    h format format_degraded threshold_degraded threshold_critical
    memory_used_method unit decimals
  = (text <- walk_format pct_mark inf_text nan_text s
               (used_memory w memory_used_method s) unit decimals O
               (select_format state format format_degraded) ;;
     Defined {| full_text :=
                  match state with
                  | Some name => start_color name ++ text ++ end_color
                  | None => text
                  end;
                color := state;
                diagnostic := "" |}).
Proof. intros H. unfold print_memory. rewrite H. reflexivity. Qed.

(** C8.  The degraded format is used exactly when the colour state is
    degraded or critical and a degraded format is configured; in every
    other case the primary format is used; the critical state selects what
    the degraded state selects, and differs in the colour only.  The
    format selected is the one that [print_memory] renders. *)
Theorem format_selection w threshold_degraded threshold_critical s
    format format_degraded :
  let state := select_color w threshold_degraded threshold_critical s in
  let alarmed := state = Some "color_degraded" \/ state = Some "color_bad" in
  (forall override,
     alarmed -> format_degraded = Some override ->
     select_format state format format_degraded = override) /\
  (~ (alarmed /\ format_degraded <> None) ->
   select_format state format format_degraded = format) /\
  select_format (Some "color_bad") format format_degraded
  = select_format (Some "color_degraded") format format_degraded /\
  (forall pct_mark start_color end_color inf_text nan_text h
          memory_used_method unit decimals,
     read_memory w h = Defined (ReadOk s) ->
     print_memory w pct_mark start_color end_color inf_text nan_text
       h format format_degraded threshold_degraded threshold_critical
       memory_used_method unit decimals
     = (text <- walk_format pct_mark inf_text nan_text s
                  (used_memory w memory_used_method s) unit decimals O
                  (select_format state format format_degraded) ;;
        Defined {| full_text :=
                     match state with
                     | Some name => start_color name ++ text ++ end_color
                     | None => text
                     end;
                   color := state;
                   diagnostic := "" |})).
Proof.
  cbv zeta.
  pose proof (select_color_range w threshold_degraded threshold_critical s)
    as Hrange. cbv zeta in Hrange.
  split; [|split; [|split]].
  - intros override [E | E] ->; rewrite E; reflexivity.
  - intros H.
    destruct (select_color w threshold_degraded threshold_critical s)
      as [name|]; [|reflexivity].
    destruct format_degraded as [override|]; [|reflexivity].
    exfalso. apply H. split; [|discriminate].
    destruct Hrange as [E | [E | E]]; [discriminate | auto | auto].
  - reflexivity.
  - intros. apply print_memory_rendered. assumption.
Qed.

Lemma format_selection_witness :
  select_format
    (select_color 64 (Some "50%") (Some "1K")
       {| total := 4096; free := 0; available := 1500;
          buffers := 0; cached := 0; shared := 0 |})
    "%used" (Some "LOW %available")
  = "LOW %available".
Proof.
  apply (proj1 (format_selection 64 (Some "50%") (Some "1K")
                  {| total := 4096; free := 0; available := 1500;
                     buffers := 0; cached := 0; shared := 0 |}
                  "%used" (Some "LOW %available")));
    [left | ]; reflexivity.
Defined.

(** ** The used memory *)

Lemma prefix_append p s : String.prefix p (p ++ s) = true.
Proof.
  induction p as [|c p IH]; [destruct s; reflexivity|].
  cbn [append String.prefix].
  destruct (ascii_dec c c) as [_|N]; [exact IH | congruence].
Qed.

Lemma prefix_split p s :
  String.prefix p s = true -> exists t, s = p ++ t.
Proof.
  revert s. induction p as [|c p IH]; intros s H.
  - exists s. reflexivity.
  - destruct s as [|d s]; [discriminate H|].
    cbn [String.prefix] in H.
    destruct (ascii_dec c d) as [<-|N]; [|discriminate H].
    destruct (IH _ H) as [t ->]. exists t. reflexivity.
Qed.

Lemma prefix_none p s :
  (forall t, s <> p ++ t) -> String.prefix p s = false.
Proof.
  intros H. destruct (String.prefix p s) eqn:E; [|reflexivity].
  apply prefix_split in E. destruct E as [t ->].
  exfalso. apply (H t). reflexivity.
Qed.

Lemma sub_sub w a b c : sub w (sub w a b) c = (a - b - c) mod 2 ^ w.
Proof. unfold sub. apply Zminus_mod_idemp_l. Qed.

Lemma used_memavailable w s tail :
  used_memory w ("memavailable" ++ tail) s
  = Some ((total s - available s) mod 2 ^ w).
Proof.
  unfold used_memory, BEGINS_WITH. rewrite prefix_append. reflexivity.
Qed.

Lemma used_classical w s tail :
  used_memory w ("classical" ++ tail) s
  = Some ((total s - free s - buffers s - cached s) mod 2 ^ w).
Proof.
  unfold used_memory, BEGINS_WITH. rewrite prefix_append.
  change (String.prefix "memavailable" ("classical" ++ tail)) with false.
  cbv iota. f_equal.
  rewrite (sub_sub w (total s) (free s) (buffers s)). unfold sub.
  rewrite Zminus_mod_idemp_l. reflexivity.
Qed.

(** C4.  The used memory is [total - available] under the policy
    memavailable and [total - free - buffers - cached] under the policy
    classical, both modulo [2^w]: with more available than total the
    result wraps to [2^w + total - available] and is not clamped; and
    there are snapshots on which the two policies differ. *)
Theorem used_memory_policies w s :
  0 < w ->
  used_memory w "memavailable" s
  = Some ((total s - available s) mod 2 ^ w) /\
  used_memory w "classical" s
  = Some ((total s - free s - buffers s - cached s) mod 2 ^ w) /\
  (0 <= total s < available s -> available s < 2 ^ w ->
   used_memory w "memavailable" s
   = Some (2 ^ w + total s - available s)) /\
  (exists s',
     used_memory w "memavailable" s' <> used_memory w "classical" s').
Proof.
  intros Hw.
  pose proof (used_memavailable w s "") as Ha.
  pose proof (used_classical w s "") as Hc.
  cbn [append] in Ha, Hc.
  repeat split; trivial.
  - intros Hlt Hmax. rewrite Ha. f_equal.
    rewrite <- (Z_mod_plus_full (total s - available s) 1 (2 ^ w)).
    rewrite small_mod by lia. ring.
  - exists {| total := 1; free := 0; available := 1;
              buffers := 0; cached := 0; shared := 0 |}.
    rewrite (used_memavailable w _ ""), (used_classical w _ "").
    cbn [total free available buffers cached].
    assert (2 <= 2 ^ w) by (apply (Z.pow_le_mono_r 2 1 w); lia).
    rewrite (small_mod w (1 - 0 - 0 - 0)) by lia.
    rewrite Z.sub_diag, Zmod_0_l. discriminate.
Qed.

Lemma used_memory_policies_witness :
  used_memory 64 "memavailable"
    {| total := 1; free := 0; available := 3;
       buffers := 0; cached := 0; shared := 0 |}
  = Some (2 ^ 64 + 1 - 3).
Proof.
  apply (used_memory_policies 64
           {| total := 1; free := 0; available := 3;
              buffers := 0; cached := 0; shared := 0 |});
    cbn [total available]; lia.
Defined.

Lemma used_unassigned w method s :
  (forall tail, method <> "memavailable" ++ tail) ->
  (forall tail, method <> "classical" ++ tail) ->
  used_memory w method s = None.
Proof.
  intros Ha Hc. unfold used_memory, BEGINS_WITH.
  rewrite (prefix_none _ _ Ha), (prefix_none _ _ Hc). reflexivity.
Qed.

Lemma walk_used_unassigned pct_mark inf_text nan_text s unit decimals :
  walk_format pct_mark inf_text nan_text s None unit decimals O "%used"
  = Undefined.
Proof. reflexivity. Qed.

(** C10.  The method is matched by prefix: every name that begins with
    memavailable gives [total - available], every name that begins with
    classical gives [total - free - buffers - cached]; under any other
    name [ram_used] is never assigned, the formatter neither rejects the
    name nor falls back, and printing the used memory reads the
    unassigned variable. *)
Theorem used_method_by_prefix w method s :
  (forall tail, method = "memavailable" ++ tail ->
     used_memory w method s = Some ((total s - available s) mod 2 ^ w)) /\
  (forall tail, method = "classical" ++ tail ->
     used_memory w method s
     = Some ((total s - free s - buffers s - cached s) mod 2 ^ w)) /\
  ((forall tail, method <> "memavailable" ++ tail) ->
   (forall tail, method <> "classical" ++ tail) ->
   used_memory w method s = None /\
   forall pct_mark start_color end_color inf_text nan_text h
          threshold_degraded threshold_critical unit decimals,
     read_memory w h = Defined (ReadOk s) ->
     print_memory w pct_mark start_color end_color inf_text nan_text
       h "%used" None threshold_degraded threshold_critical
       method unit decimals
     = Undefined).
Proof.
  repeat split.
  - intros tail ->. apply used_memavailable.
  - intros tail ->. apply used_classical.
  - apply used_unassigned; assumption.
  - intros pct_mark start_color end_color inf_text nan_text h
      threshold_degraded threshold_critical unit decimals Hread.
    unfold print_memory. rewrite Hread. cbn [bind].
    rewrite used_unassigned by assumption.
    replace (select_format
               (select_color w threshold_degraded threshold_critical s)
               "%used" None)
      with "%used"
      by (destruct (select_color w threshold_degraded threshold_critical s);
          reflexivity).
    rewrite walk_used_unassigned. reflexivity.
Qed.

Lemma used_method_by_prefix_witness :
  used_memory 64 "other"
    {| total := 8192; free := 4096; available := 0;
       buffers := 0; cached := 0; shared := 0 |} = None /\
  print_memory 64 "%" (fun name => name) "" "inf" "nan"
    (FreeBSD (Some 4096) (Some 8192) (Some 1))
    "%used" None None None "other" "auto" 1
  = Undefined.
Proof.
  destruct (used_method_by_prefix 64 "other"
              {| total := 8192; free := 4096; available := 0;
                 buffers := 0; cached := 0; shared := 0 |})
    as [_ [_ H]].
  destruct H as [Hnone Hprint].
  - intros tail E. discriminate E.
  - intros tail E. discriminate E.
  - split; [exact Hnone|]. apply Hprint. reflexivity.
Defined.

(** ** The format *)

Lemma placeholder_unknown pct_mark inf_text nan_text s ram_used unit decimals
    after :
  no_token after ->
  placeholder pct_mark inf_text nan_text s ram_used unit decimals after
  = Defined ("%", O).
Proof.
  intros H. unfold placeholder, BEGINS_WITH.
  repeat match goal with
  | |- context [String.prefix ?token after] =>
      rewrite (prefix_none token after)
        by (apply H; unfold tokens; simpl; tauto)
  end.
  reflexivity.
Qed.

(** Passing [skip] characters in the loop is the addition of [skip] to
    [walk]. *)
Lemma walk_format_skip pct_mark inf_text nan_text s ram_used unit decimals
    skip walk :
  walk_format pct_mark inf_text nan_text s ram_used unit decimals skip walk
  = walk_format pct_mark inf_text nan_text s ram_used unit decimals O
      (advance skip walk).
Proof.
  revert walk. induction skip as [|skip IH]; intros walk.
  - destruct walk; reflexivity.
  - destruct walk as [|c walk]; [reflexivity|].
    cbn [walk_format advance]. apply IH.
Qed.

(** C7.  A percent sign that no placeholder follows is written as it is,
    and the scan goes on at the character after it: nothing of the format
    is consumed.  So the format "%bogus" gives the text "%bogus". *)
Theorem unknown_placeholder pct_mark inf_text nan_text s ram_used unit
    decimals after :
  no_token after ->
  walk_format pct_mark inf_text nan_text s ram_used unit decimals O
    (String "%" after)
  = (text <- walk_format pct_mark inf_text nan_text s ram_used unit decimals
               O after ;;
     Defined (String "%" text)) /\
  walk_format pct_mark inf_text nan_text s ram_used unit decimals O "%bogus"
  = Defined "%bogus".
Proof.
  intros H. split; [|reflexivity].
  cbn [walk_format]. change (Ascii.eqb "%" "%") with true. cbv iota.
  rewrite placeholder_unknown by exact H.
  cbn [bind fst snd].
  destruct (walk_format pct_mark inf_text nan_text s ram_used unit decimals
              O after); reflexivity.
Qed.

Lemma unknown_placeholder_witness :
  let s := {| total := 8192; free := 4096; available := 0;
              buffers := 0; cached := 0; shared := 0 |} in
  walk_format "%" "inf" "nan" s None "auto" 1 O "%bogus"
  = (text <- walk_format "%" "inf" "nan" s None "auto" 1 O "bogus" ;;
     Defined (String "%" text)) /\
  walk_format "%" "inf" "nan" s None "auto" 1 O "%bogus" = Defined "%bogus".
Proof.
  apply (unknown_placeholder "%" "inf" "nan"
           {| total := 8192; free := 4096; available := 0;
              buffers := 0; cached := 0; shared := 0 |}
           None "auto" 1 "bogus").
  intros token Hin tail E. unfold tokens in Hin. simpl in Hin.
  repeat (destruct Hin as [<- | Hin]; [discriminate E|]).
  contradiction.
Defined.

(** ** Facts of the arithmetic of [double] *)

Module DoubleFacts.

Import Double.
Local Open Scope Q_scope.

Lemma two_nonzero : ~ 2 == 0.
Proof. discriminate. Qed.

Lemma pow2_pos e : 0 < pow2 e.
Proof. apply Qpower_0_lt. reflexivity. Qed.

Lemma pow2_add a b : pow2 (a + b) == pow2 a * pow2 b.
Proof. apply Qpower_plus. exact two_nonzero. Qed.

Lemma pow2_le a b : (a <= b)%Z -> pow2 a <= pow2 b.
Proof. intros H. apply Qpower_le_compat_l; [exact H | discriminate]. Qed.

Lemma pow2_inject n : (0 <= n)%Z -> pow2 n == inject_Z (2 ^ n).
Proof. intros H. unfold pow2. rewrite Zpower_Qpower by exact H. reflexivity. Qed.

Lemma round_half_even_comp q q' :
  q == q' -> round_half_even q = round_half_even q'.
Proof.
  intros E. unfold round_half_even. cbv zeta.
  rewrite (Qfloor_comp _ _ E).
  rewrite (Qcompare_comp (q - inject_Z (Qfloor q')) (q' - inject_Z (Qfloor q'))
             ltac:(rewrite E; reflexivity) (1 # 2) (1 # 2) ltac:(reflexivity)).
  reflexivity.
Qed.

Lemma round_half_even_Z z : round_half_even (inject_Z z) = z.
Proof.
  unfold round_half_even. cbv zeta. rewrite Qfloor_Z.
  replace (Qcompare (inject_Z z - inject_Z z) (1 # 2)) with Lt; [reflexivity|].
  symmetry. apply Qlt_alt.
  setoid_replace (inject_Z z - inject_Z z) with 0 by ring. reflexivity.
Qed.

(** The exponent found is the one of the binade of [q]. *)
Lemma binary_exponent_spec q :
  0 < q -> pow2 (binary_exponent q) <= q < pow2 (binary_exponent q + 1).
Proof.
  intros Hq. destruct q as [n d]. unfold Qlt in Hq. simpl in Hq.
  rewrite Z.mul_1_r in Hq.
  unfold binary_exponent. cbn [Qnum Qden].
  set (a := Z.log2 n). set (b := Z.log2 (Zpos d)).
  destruct (Z.log2_spec n Hq) as [Hna Hna'].
  destruct (Z.log2_spec (Zpos d) ltac:(lia)) as [Hdb Hdb'].
  fold a in Hna, Hna'. fold b in Hdb, Hdb'.
  assert (Ha : (0 <= a)%Z) by apply Z.log2_nonneg.
  assert (Hb : (0 <= b)%Z) by apply Z.log2_nonneg.
  assert (Hlow : pow2 (a - b - 1) <= n # d).
  { replace (a - b - 1)%Z with (a - (b + 1))%Z by lia.
    unfold pow2. rewrite Qpower_minus by exact two_nonzero.
    fold (pow2 a). fold (pow2 (b + 1)).
    rewrite !pow2_inject by lia.
    apply Qle_shift_div_r.
    - change 0 with (inject_Z 0). rewrite <- Zlt_Qlt. lia.
    - unfold Qle. simpl. nia. }
  assert (Hhigh : n # d < pow2 (a - b + 1)).
  { replace (a - b + 1)%Z with (a + 1 - b)%Z by lia.
    unfold pow2. rewrite Qpower_minus by exact two_nonzero.
    fold (pow2 (a + 1)). fold (pow2 b).
    rewrite !pow2_inject by lia.
    apply Qlt_shift_div_l.
    - change 0 with (inject_Z 0). rewrite <- Zlt_Qlt. lia.
    - unfold Qlt. simpl. nia. }
  destruct (Qle_bool (pow2 (a - b)) (n # d)) eqn:E.
  - apply Qle_bool_iff in E. split; assumption.
  - split; [exact Hlow|].
    replace (a - b - 1 + 1)%Z with (a - b)%Z by lia.
    apply Qnot_le_lt. intros H. apply Qle_bool_iff in H. congruence.
Qed.

Lemma binade_unique q e e' :
  pow2 e <= q < pow2 (e + 1) -> pow2 e' <= q < pow2 (e' + 1) -> e = e'.
Proof.
  intros [Hl Hu] [Hl' Hu'].
  destruct (Z.lt_trichotomy e e') as [H | [H | H]]; [|exact H|]; exfalso.
  - apply (Qlt_irrefl q). eapply Qlt_le_trans; [exact Hu|].
    eapply Qle_trans; [|exact Hl']. apply pow2_le. lia.
  - apply (Qlt_irrefl q). eapply Qlt_le_trans; [exact Hu'|].
    eapply Qle_trans; [|exact Hl]. apply pow2_le. lia.
Qed.

Lemma binary_exponent_comp q q' :
  0 < q -> q == q' -> binary_exponent q = binary_exponent q'.
Proof.
  intros Hq E.
  apply (binade_unique q); [apply binary_exponent_spec; exact Hq|].
  rewrite E. apply binary_exponent_spec. rewrite <- E. exact Hq.
Qed.

Lemma binary_exponent_scale q k :
  0 < q -> binary_exponent (q * pow2 k) = (binary_exponent q + k)%Z.
Proof.
  intros Hq.
  assert (Hs : 0 < q * pow2 k).
  { rewrite <- (Qmult_0_l (pow2 k)). apply Qmult_lt_compat_r;
      [apply pow2_pos | exact Hq]. }
  symmetry. apply (binade_unique (q * pow2 k));
    [|apply binary_exponent_spec; exact Hs].
  destruct (binary_exponent_spec q Hq) as [Hl Hu].
  replace (binary_exponent q + k + 1)%Z with (binary_exponent q + 1 + k)%Z
    by lia.
  rewrite (pow2_add (binary_exponent q) k),
    (pow2_add (binary_exponent q + 1) k). split.
  - apply Qmult_le_compat_r; [exact Hl|]. apply Qlt_le_weak, pow2_pos.
  - apply Qmult_lt_compat_r; [apply pow2_pos | exact Hu].
Qed.

Lemma round_positive_comp q q' :
  0 < q -> q == q' -> round_positive q == round_positive q'.
Proof.
  intros Hq E. unfold round_positive. cbv zeta. rewrite !Qred_correct.
  rewrite <- (binary_exponent_comp q q' Hq E).
  rewrite (round_half_even_comp (q * pow2 (52 - binary_exponent q))
             (q' * pow2 (52 - binary_exponent q)))
    by (apply Qmult_comp; [exact E | reflexivity]).
  reflexivity.
Qed.

(** Rounding commutes with a change of the binary exponent. *)
Lemma round_positive_scale q k :
  0 < q -> round_positive (q * pow2 k) == round_positive q * pow2 k.
Proof.
  intros Hq. unfold round_positive. cbv zeta. rewrite !Qred_correct.
  rewrite (binary_exponent_scale q k Hq).
  set (e := binary_exponent q).
  rewrite (round_half_even_comp (q * pow2 k * pow2 (52 - (e + k)))
             (q * pow2 (52 - e))).
  - replace (e + k - 52)%Z with ((e - 52) + k)%Z by lia.
    rewrite pow2_add. ring.
  - rewrite <- Qmult_assoc, <- pow2_add.
    replace (k + (52 - (e + k)))%Z with (52 - e)%Z by lia. reflexivity.
Qed.

Lemma binary_exponent_Z n :
  (0 < n)%Z -> binary_exponent (inject_Z n) = Z.log2 n.
Proof.
  intros Hn. symmetry.
  apply (binade_unique (inject_Z n));
    [|apply binary_exponent_spec; change 0 with (inject_Z 0);
      rewrite <- Zlt_Qlt; exact Hn].
  destruct (Z.log2_spec n Hn) as [Hl Hu].
  pose proof (Z.log2_nonneg n) as H0.
  rewrite !pow2_inject by lia.
  replace (Z.log2 n + 1)%Z with (Z.succ (Z.log2 n)) by lia.
  split; [rewrite <- Zle_Qle | rewrite <- Zlt_Qlt]; assumption.
Qed.

(** An integer of at most 53 bits is a [double]. *)
Lemma round_positive_Z n :
  (0 < n < 2 ^ 53)%Z -> round_positive (inject_Z n) == inject_Z n.
Proof.
  intros [Hpos Hlt]. unfold round_positive. cbv zeta. rewrite Qred_correct.
  rewrite (binary_exponent_Z n Hpos).
  assert (He : (0 <= Z.log2 n < 53)%Z).
  { split; [apply Z.log2_nonneg|]. apply Z.log2_lt_pow2; lia. }
  rewrite (round_half_even_comp _ (inject_Z (n * 2 ^ (52 - Z.log2 n)))).
  - rewrite round_half_even_Z, inject_Z_mult, <- pow2_inject by lia.
    rewrite <- Qmult_assoc, <- pow2_add.
    replace (52 - Z.log2 n + (Z.log2 n - 52))%Z with 0%Z by lia.
    change (pow2 0) with 1. ring.
  - rewrite inject_Z_mult, <- pow2_inject by lia. reflexivity.
Qed.

Lemma round_positive_representable q :
  0 < q -> representable q -> round_positive q == q.
Proof.
  intros Hq [m [k [Hm E]]].
  rewrite (round_positive_comp q (inject_Z m * pow2 k) Hq E).
  rewrite round_positive_scale
    by (change 0 with (inject_Z 0); rewrite <- Zlt_Qlt; lia).
  rewrite (round_positive_Z m Hm). symmetry. exact E.
Qed.

Lemma round_half_even_bounds q lo hi :
  inject_Z lo <= q -> q < inject_Z hi ->
  (lo <= round_half_even q <= hi)%Z.
Proof.
  intros Hlo Hhi.
  assert (Hf : (lo <= Qfloor q < hi)%Z).
  { split.
    - rewrite <- (Qfloor_Z lo). apply Qfloor_resp_le. exact Hlo.
    - rewrite Zlt_Qlt. eapply Qle_lt_trans; [apply Qfloor_le | exact Hhi]. }
  unfold round_half_even. cbv zeta.
  destruct (Qcompare (q - inject_Z (Qfloor q)) (1 # 2));
    [destruct (Z.even (Qfloor q))| |]; lia.
Qed.

Lemma round_positive_is_representable q :
  0 < q -> 0 < round_positive q /\ representable (round_positive q).
Proof.
  intros Hq.
  destruct (binary_exponent_spec q Hq) as [Hl Hu].
  set (e := binary_exponent q) in *.
  assert (Hm : (2 ^ 52 <= round_half_even (q * pow2 (52 - e)) <= 2 ^ 53)%Z).
  { apply round_half_even_bounds.
    - rewrite <- pow2_inject by lia.
      setoid_replace (pow2 52) with (pow2 e * pow2 (52 - e))
        by (rewrite <- pow2_add; replace (e + (52 - e))%Z with 52%Z by lia;
            reflexivity).
      apply Qmult_le_compat_r; [exact Hl|]. apply Qlt_le_weak, pow2_pos.
    - rewrite <- pow2_inject by lia.
      setoid_replace (pow2 53) with (pow2 (e + 1) * pow2 (52 - e))
        by (rewrite <- pow2_add; replace (e + 1 + (52 - e))%Z with 53%Z by lia;
            reflexivity).
      apply Qmult_lt_compat_r; [apply pow2_pos | exact Hu]. }
  assert (E : round_positive q
              == inject_Z (round_half_even (q * pow2 (52 - e)))
                 * pow2 (e - 52))
    by (unfold round_positive; cbv zeta; fold e; apply Qred_correct).
  set (m := round_half_even (q * pow2 (52 - e))) in *.
  split.
  - rewrite E. rewrite <- (Qmult_0_l (pow2 (e - 52))).
    apply Qmult_lt_compat_r; [apply pow2_pos|].
    change 0 with (inject_Z 0). rewrite <- Zlt_Qlt. lia.
  - destruct (Z.eq_dec m (2 ^ 53)) as [Hmax|Hne].
    + exists (2 ^ 52)%Z, (e - 51)%Z. split; [lia|].
      rewrite E, Hmax.
      replace (e - 51)%Z with (1 + (e - 52))%Z by lia.
      rewrite pow2_add. change (pow2 1) with 2.
      change (inject_Z (2 ^ 53)) with (inject_Z (2 ^ 52) * 2). ring.
    + exists m, (e - 52)%Z. split; [lia | exact E].
Qed.

Lemma round_idempotent q : 0 < q -> round_positive (round_positive q) == round_positive q.
Proof.
  intros Hq. destruct (round_positive_is_representable q Hq) as [Hpos Hrep].
  apply round_positive_representable; assumption.
Qed.


Lemma round_of_positive q : 0 < q -> round q = round_positive q.
Proof.
  intros Hq. unfold round.
  replace (Qcompare q 0) with Gt; [reflexivity|].
  symmetry. apply Qgt_alt. exact Hq.
Qed.

Lemma round_of_zero q : q == 0 -> round q = 0.
Proof.
  intros Hq. unfold round.
  replace (Qcompare q 0) with Eq; [reflexivity|].
  symmetry. apply Qeq_alt. exact Hq.
Qed.

Lemma of_ulong_plain n : (0 <= n)%Z -> plain (of_ulong n).
Proof.
  intros Hn. unfold of_ulong.
  destruct (Z.eq_dec n 0) as [->|Hne].
  - left. reflexivity.
  - right. rewrite round_of_positive
      by (change 0 with (inject_Z 0); rewrite <- Zlt_Qlt; lia).
    apply round_positive_is_representable.
    change 0 with (inject_Z 0). rewrite <- Zlt_Qlt. lia.
Qed.

(** The conversion of an integer below [2^53] is exact. *)
Lemma of_ulong_exact n :
  (0 <= n < 2 ^ 53)%Z -> of_ulong n == inject_Z n.
Proof.
  intros Hn. unfold of_ulong.
  destruct (Z.eq_dec n 0) as [->|Hne]; [reflexivity|].
  rewrite round_of_positive
    by (change 0 with (inject_Z 0); rewrite <- Zlt_Qlt; lia).
  apply round_positive_Z. lia.
Qed.

Lemma over_1024 q : q / inject_Z 1024 == q * pow2 (-10).
Proof. reflexivity. Qed.

(** The division of a [double] by 1024 is exact. *)
Lemma div_1024_exact q :
  plain q ->
  div q (inject_Z 1024) == q / inject_Z 1024 /\
  plain (div q (inject_Z 1024)).
Proof.
  intros [Hz | [Hq [m [k [Hm E]]]]].
  - assert (Hz' : q / inject_Z 1024 == 0) by (rewrite Hz; reflexivity).
    unfold div. rewrite (round_of_zero _ Hz'). split.
    + symmetry. exact Hz'.
    + left. reflexivity.
  - assert (Hs : 0 < q / inject_Z 1024).
    { rewrite over_1024. rewrite <- (Qmult_0_l (pow2 (-10))).
      apply Qmult_lt_compat_r; [apply pow2_pos | exact Hq]. }
    assert (Hrep : representable (q / inject_Z 1024)).
    { exists m, (k + -10)%Z. split; [exact Hm|].
      rewrite over_1024, E, pow2_add. ring. }
    unfold div. rewrite (round_of_positive _ Hs).
    assert (Hexact : round_positive (q / inject_Z 1024) == q / inject_Z 1024)
      by (apply round_positive_representable; assumption).
    split; [exact Hexact|]. right. split.
    + rewrite Hexact. exact Hs.
    + destruct Hrep as [m' [k' [Hm' E']]]. exists m', k'.
      split; [exact Hm'|]. rewrite Hexact. exact E'.
Qed.

End DoubleFacts.

(** ** Sizes for people *)

(** After [e] turns of the loop the value is the byte count, as a
    [double], over [1024^e]: no division rounds. *)
Lemma divided_exact bytes e :
  0 <= bytes ->
  (divided bytes e
   == Double.of_ulong bytes / inject_Z (1024 ^ Z.of_nat e))%Q.
Proof.
  intros Hbytes.
  assert (H : (divided bytes e
               == Double.of_ulong bytes / inject_Z (1024 ^ Z.of_nat e))%Q
              /\ plain (divided bytes e)).
  { induction e as [|e [IH Hplain]].
    - split; [|apply DoubleFacts.of_ulong_plain; exact Hbytes].
      unfold divided. cbn [Nat.iter]. change (1024 ^ Z.of_nat 0) with 1.
      unfold Qdiv. change (/ inject_Z 1)%Q with 1%Q.
      rewrite Qmult_1_r. reflexivity.
    - change (divided bytes (S e))
        with (Double.div (divided bytes e) (inject_Z 1024)).
      destruct (DoubleFacts.div_1024_exact _ Hplain) as [Hdiv Hplain'].
      split; [|exact Hplain'].
      rewrite Hdiv, IH, Nat2Z.inj_succ, Z.pow_succ_r by lia.
      rewrite inject_Z_mult. field.
      change 0%Q with (inject_Z 0). rewrite inject_Z_injective.
      apply Z.pow_nonzero; lia. }
  apply H.
Qed.

Lemma scale_loop_stops fuel unit bytes e :
  (e + fuel = MAX_EXPONENT)%nat ->
  exists e',
    scale_loop fuel unit (divided bytes e) e = (divided bytes e', e') /\
    (e <= e')%nat /\
    ~ goes_on bytes unit e' /\
    forall j, (e <= j < e')%nat -> goes_on bytes unit j.
Proof.
  revert e. induction fuel as [|fuel IH]; intros e Hfuel.
  { exists e. cbn [scale_loop].
    split; [reflexivity | split; [lia | split]].
    - intros [_ [H _]]. lia.
    - intros j Hj. lia. }
  cbn [scale_loop].
  assert (Hhere : ~ goes_on bytes unit e ->
    exists e',
      (divided bytes e, e) = (divided bytes e', e') /\
      (e <= e')%nat /\
      ~ goes_on bytes unit e' /\
      forall j, (e <= j < e')%nat -> goes_on bytes unit j).
  { intros Hstop. exists e.
    split; [reflexivity | split; [lia | split; [exact Hstop|]]].
    intros j Hj. lia. }
  destruct (Qle_bool (inject_Z BINARY_BASE) (divided bytes e)) eqn:Hbase;
    cbn [andb].
  - destruct (Nat.ltb_spec e MAX_EXPONENT) as [Hlt|Hge].
    + destruct (Libc.strcasecmp_eq unit (symbol e)) eqn:Hunit.
      * apply Hhere. intros [_ [_ H]]. congruence.
      * destruct (IH (S e)) as [e' [Hrun [Hle [Hstop Hbefore]]]]; [lia|].
        exists e'.
        split; [exact Hrun | split; [lia | split; [exact Hstop|]]].
        intros j Hj. destruct (Nat.eq_dec j e) as [->|Hne].
        -- split; [|split; [exact Hlt | exact Hunit]].
           apply Qle_bool_iff. exact Hbase.
        -- apply Hbefore. lia.
    + apply Hhere. intros [_ [H _]]. lia.
  - apply Hhere. intros [H _]. apply Qle_bool_iff in H.
    unfold BINARY_BASE in Hbase. congruence.
Qed.

(** C6.  [print_bytes_human] divides the byte count by 1024 as long as the
    value is at least 1024, a larger symbol exists and the symbol reached
    is not the unit asked for (compared without case), and writes the
    value with the given number of decimals, a space and the symbol
    reached; the value after [e] divisions is the byte count, as a
    [double], over [1024^e].  With the unit auto and one decimal, 1024
    bytes give "1.0 KiB", 1048576 bytes "1.0 MiB" and 512 bytes
    "512.0 B". *)
Theorem human_readable bytes unit decimals :
  (exists e,
     print_bytes_human bytes unit decimals
     = Printf.format_f decimals (divided bytes e) ++ " " ++ symbol e /\
     ~ goes_on bytes unit e /\
     forall j, (j < e)%nat -> goes_on bytes unit j) /\
  (0 <= bytes ->
   forall e,
     (divided bytes e
      == Double.of_ulong bytes / inject_Z (1024 ^ Z.of_nat e))%Q) /\
  print_bytes_human 1024 "auto" 1 = "1.0 KiB" /\
  print_bytes_human 1048576 "auto" 1 = "1.0 MiB" /\
  print_bytes_human 512 "auto" 1 = "512.0 B".
Proof.
  split; [|split; [|repeat split; vm_compute; reflexivity]].
  - destruct (scale_loop_stops MAX_EXPONENT unit bytes 0)
      as [e [Hrun [_ [Hstop Hbefore]]]]; [reflexivity|].
    exists e. unfold print_bytes_human.
    change (Double.of_ulong bytes) with (divided bytes 0).
    rewrite Hrun. split; [reflexivity | split; [exact Hstop|]].
    intros j Hj. apply Hbefore. lia.
  - intros Hbytes e. apply divided_exact. exact Hbytes.
Qed.

Lemma human_readable_witness :
  (divided 1048576 2
   == Double.of_ulong 1048576 / inject_Z (1024 ^ Z.of_nat 2))%Q.
Proof.
  apply (human_readable 1048576 "auto" 1). lia.
Defined.

(** ** The lines of [/proc/meminfo] *)

Lemma read_line_split room stream :
  let '(line, rest) := read_line room stream in line ++ rest = stream.
Proof.
  revert stream. induction room as [|room IH]; intros stream.
  - destruct stream; reflexivity.
  - destruct stream as [|c stream]; [reflexivity|].
    cbn [read_line]. destruct (Ascii.eqb c newline); [reflexivity|].
    specialize (IH stream). destruct (read_line room stream) as [line rest].
    cbn [append]. rewrite IH. reflexivity.
Qed.

Lemma read_line_rest room stream :
  (String.length (snd (read_line room stream)) <= String.length stream)%nat.
Proof.
  revert stream. induction room as [|room IH]; intros stream.
  - destruct stream; simpl; lia.
  - destruct stream as [|c stream]; [simpl; lia|].
    cbn [read_line]. destruct (Ascii.eqb c newline); [simpl; lia|].
    specialize (IH stream). destruct (read_line room stream) as [line rest].
    cbn [snd String.length] in *. lia.
Qed.

Lemma read_line_progress room c stream :
  (String.length (snd (read_line (S room) (String c stream)))
   <= String.length stream)%nat.
Proof.
  cbn [read_line]. destruct (Ascii.eqb c newline); [simpl; lia|].
  pose proof (read_line_rest room stream) as H.
  destruct (read_line room stream) as [line rest]. exact H.
Qed.

(** The lines of a stream, one after the other, are the stream: the
    reader sees all of the file. *)
Lemma file_lines_cover stream :
  fold_right append "" (file_lines stream) = stream.
Proof.
  unfold file_lines.
  assert (H : forall fuel s, (String.length s <= fuel)%nat ->
            fold_right append "" (lines_from fuel s) = s).
  { induction fuel as [|fuel IH]; intros s Hs.
    - destruct s; [reflexivity | simpl in Hs; lia].
    - destruct s as [|c s]; [reflexivity|].
      cbn [lines_from fgets]. change (128 - 1)%nat with 127%nat.
      pose proof (read_line_split 127 (String c s)) as Hsplit.
      pose proof (read_line_progress 126 c s) as Hprog.
      destruct (read_line 127 (String c s)) as [line rest].
      cbn [fold_right snd] in *. rewrite IH; [exact Hsplit|].
      simpl in Hs. lia. }
  apply H. lia.
Qed.

Lemma assign_field_labelled w c line :
  match assign_field w c line with
  | Some _ => labelled line = true
  | None => labelled line = false
  end.
Proof.
  unfold assign_field, labelled, labels. cbn [existsb].
  repeat match goal with
  | |- context [BEGINS_WITH line ?label] =>
      destruct (BEGINS_WITH line label); cbn [orb]; try reflexivity
  end.
Qed.

Lemma read_fields_unread w lines c unread_fields :
  0 < unread_fields ->
  snd (read_fields w lines c unread_fields)
  = Z.max 0 (unread_fields - Z.of_nat (matching_lines lines)).
Proof.
  revert c unread_fields.
  induction lines as [|line lines IH]; intros c u Hu.
  - unfold matching_lines. simpl. lia.
  - cbn [read_fields]. unfold matching_lines in *. cbn [filter].
    pose proof (assign_field_labelled w c line) as Hline.
    destruct (assign_field w c line) as [c'|]; rewrite Hline.
    + cbn [List.length]. destruct (Z.eqb_spec (u - 1) 0) as [E|E].
      * cbn [snd]. lia.
      * rewrite IH by lia. lia.
    + apply IH. exact Hu.
Qed.

Lemma read_meminfo_fails w stream :
  read_meminfo w (Some stream) = None
  <-> (matching_lines (file_lines stream) < 6)%nat.
Proof.
  unfold read_meminfo.
  pose proof (read_fields_unread w (file_lines stream) unassigned 6) as H.
  destruct (read_fields w (file_lines stream) unassigned 6) as [c u].
  cbn [snd] in H. specialize (H ltac:(lia)).
  destruct (Z.ltb_spec 0 u); split; intros E; try discriminate; try reflexivity;
    lia.
Qed.

Lemma read_fails_error w h :
  read_fails h -> read_memory w h = Defined ReadError.
Proof.
  destruct h as [[stream|] | hw_pagesize hw_physmem v_free_count | ];
    cbn [read_fails]; intros H.
  - apply (read_meminfo_fails w) in H. cbn [read_memory]. rewrite H.
    reflexivity.
  - reflexivity.
  - cbn [read_memory]. unfold read_sysctl.
    destruct hw_pagesize; [|reflexivity].
    destruct hw_physmem; [|reflexivity].
    destruct v_free_count; [|reflexivity].
    destruct H as [H | [H | H]]; discriminate H.
  - contradiction.
Qed.

(** C2, as the code has it.  When the reader fails, the text handed to
    the output is "can't read memory", the line "i3status: Cannot read
    system memory" goes to the error stream, no colour is set, and the
    formats play no part. *)
Theorem read_failure_output w pct_mark start_color end_color inf_text
    nan_text h format format_degraded threshold_degraded threshold_critical
    memory_used_method unit decimals :
  read_fails h ->
  print_memory w pct_mark start_color end_color inf_text nan_text
    h format format_degraded threshold_degraded threshold_critical
    memory_used_method unit decimals
  = Defined {| full_text := "can't read memory";
               color := None;
               diagnostic := "i3status: Cannot read system memory"
                             ++ String newline "" |}.
Proof.
  intros H. unfold print_memory.
  rewrite (read_fails_error w h H). reflexivity.
Qed.

Lemma read_failure_output_witness :
  print_memory 64 "%" (fun name => name) "" "inf" "nan"
    (Linux (Some ("MemTotal: 8 kB" ++ String newline "MemFree: 4 kB")))
    "%free of %total" None None None "memavailable" "auto" 1
  = Defined {| full_text := "can't read memory";
               color := None;
               diagnostic := "i3status: Cannot read system memory"
                             ++ String newline "" |}.
Proof.
  apply (read_failure_output 64 "%" (fun name => name) "" "inf" "nan"
           (Linux (Some ("MemTotal: 8 kB" ++ String newline "MemFree: 4 kB")))).
  vm_compute. lia.
Defined.

(** C2 as stated fails: the text of the failure is not
    "cannot read memory"; and a file of six lines that all carry the label
    of the total, where five of the six fields are never found, does not
    take the failure path. *)
Lemma failure_text_differs :
  (exists o,
     print_memory 64 "%" (fun name => name) "" "inf" "nan"
       (Linux None) "%used" None None None "memavailable" "auto" 1
     = Defined o /\
     full_text o = "can't read memory" /\
     full_text o <> "cannot read memory") /\
  print_memory 64 "%" (fun name => name) "" "inf" "nan"
    (Linux (Some total_six_times)) "%used" None None None
    "memavailable" "auto" 1
  <> Defined error_output.
Proof.
  split.
  - eexists. split; [reflexivity|]. split; [reflexivity | discriminate].
  - discriminate.
Qed.

Lemma assign_field_other w c c' line label :
  In label labels ->
  BEGINS_WITH line label = false ->
  assign_field w c line = Some c' ->
  counter_of label c' = counter_of label c.
Proof.
  intros Hin Hline. unfold labels in Hin. cbn [In] in Hin.
  unfold assign_field.
  repeat match goal with
  | |- context [BEGINS_WITH line ?l] => destruct (BEGINS_WITH line l) eqn:?
  end;
  intros E; try discriminate E; injection E as <-.
  all: repeat (destruct Hin as [<- | Hin];
               [first [reflexivity | congruence]|]).
  all: contradiction.
Qed.

(** A counter whose label no line carries is as it was before the loop. *)
Lemma read_fields_never_seen w label lines c unread_fields :
  In label labels ->
  never_seen label lines ->
  counter_of label (fst (read_fields w lines c unread_fields))
  = counter_of label c.
Proof.
  intros Hin. revert c unread_fields.
  induction lines as [|line lines IH]; intros c u Hnever; [reflexivity|].
  assert (Hline : BEGINS_WITH line label = false)
    by (apply Hnever; left; reflexivity).
  assert (Hrest : never_seen label lines)
    by (intros l Hl; apply Hnever; right; exact Hl).
  cbn [read_fields].
  destruct (assign_field w c line) as [c'|] eqn:E; [|apply IH; exact Hrest].
  pose proof (assign_field_other w c c' line label Hin Hline E) as Hc'.
  destruct (u - 1 =? 0); [exact Hc'|].
  rewrite IH by exact Hrest. exact Hc'.
Qed.

Lemma convert_unassigned w label c :
  In label labels -> counter_of label c = None -> convert w c = Undefined.
Proof.
  intros Hin Hnone. unfold labels in Hin. cbn [In] in Hin.
  destruct c as [[t|] [f|] [a|] [b|] [ca|] [sh|]];
    repeat (destruct Hin as [<- | Hin];
            [first [discriminate Hnone | reflexivity]|]);
    contradiction.
Qed.

(** C9.  The reader counts the lines that start with a label, not the
    labels seen: it fails exactly when fewer than six such lines occur in
    the file.  When six such lines occur and some label is on none of the
    lines, the test passes with the counter of that label never assigned,
    and the conversion to bytes that follows reads it.  Six lines with the
    label MemTotal are such a file. *)
Theorem reader_counts_lines :
  (forall w stream,
     read_meminfo w (Some stream) = None
     <-> (matching_lines (file_lines stream) < 6)%nat) /\
  (forall w stream label,
     In label labels ->
     never_seen label (file_lines stream) ->
     (6 <= matching_lines (file_lines stream))%nat ->
     (exists c,
        read_meminfo w (Some stream) = Some c /\ counter_of label c = None)
     /\
     forall pct_mark start_color end_color inf_text nan_text format
            format_degraded threshold_degraded threshold_critical
            memory_used_method unit decimals,
       print_memory w pct_mark start_color end_color inf_text nan_text
         (Linux (Some stream))
         format format_degraded threshold_degraded threshold_critical
         memory_used_method unit decimals
       = Undefined) /\
  (exists c,
     read_meminfo 64 (Some total_six_times) = Some c /\
     ram_total c = Some 1 /\ ram_free c = None /\ ram_available c = None /\
     ram_buffers c = None /\ ram_cached c = None /\ ram_shared c = None) /\
  (forall pct_mark start_color end_color inf_text nan_text format
          format_degraded threshold_degraded threshold_critical
          memory_used_method unit decimals,
     print_memory 64 pct_mark start_color end_color inf_text nan_text
       (Linux (Some total_six_times))
       format format_degraded threshold_degraded threshold_critical
       memory_used_method unit decimals
     = Undefined).
Proof.
  split; [exact read_meminfo_fails|]. split; [|split].
  - intros w stream label Hin Hnever Hsix.
    assert (Hc : exists c,
              read_meminfo w (Some stream) = Some c
              /\ counter_of label c = None).
    { destruct (read_meminfo w (Some stream)) as [c|] eqn:E.
      - exists c. split; [reflexivity|].
        unfold read_meminfo in E.
        pose proof (read_fields_never_seen w label (file_lines stream)
                      unassigned 6 Hin Hnever) as Hkeep.
        destruct (read_fields w (file_lines stream) unassigned 6)
          as [c0 u].
        destruct (0 <? u); [discriminate E|]. injection E as <-.
        cbn [fst] in Hkeep. rewrite Hkeep.
        unfold counter_of.
        repeat match goal with
        | |- context [String.eqb ?a ?b] => destruct (String.eqb a b)
        end; reflexivity.
      - apply read_meminfo_fails in E. lia. }
    split; [exact Hc|]. intros.
    destruct Hc as [c [Hread Hnone]].
    unfold print_memory. cbn [read_memory]. rewrite Hread.
    rewrite (convert_unassigned w label c Hin Hnone). reflexivity.
  - eexists. split; [vm_compute; reflexivity|]. repeat split.
  - intros. reflexivity.
Qed.

Lemma reader_counts_lines_witness :
  (exists c,
     read_meminfo 64 (Some total_six_times) = Some c
     /\ counter_of "Shmem:" c = None) /\
  forall pct_mark start_color end_color inf_text nan_text format
         format_degraded threshold_degraded threshold_critical
         memory_used_method unit decimals,
    print_memory 64 pct_mark start_color end_color inf_text nan_text
      (Linux (Some total_six_times))
      format format_degraded threshold_degraded threshold_critical
      memory_used_method unit decimals
    = Undefined.
Proof.
  apply (proj1 (proj2 reader_counts_lines) 64 total_six_times "Shmem:").
  - unfold labels. cbn [In]. tauto.
  - intros line Hin. vm_compute in Hin.
    repeat (destruct Hin as [<- | Hin]; [reflexivity|]). contradiction.
  - vm_compute. lia.
Defined.

(** * Further properties of the code *)

(** ** [memory_absolute] on other thresholds *)

Lemma spaces_no_digit ws tail :
  all_chars Libc.isspace ws = true ->
  Libc.starts_with_digit tail = false ->
  Libc.starts_with_digit (ws ++ tail) = false.
Proof.
  intros Hws Htail. destruct ws as [|c ws]; [exact Htail|].
  cbn [append Libc.starts_with_digit].
  simpl in Hws. apply andb_prop in Hws. apply space_not_digit. tauto.
Qed.

(** X1.  A threshold made of the digits of a number [N], optional white
    space and then nothing, or a character that the [switch] has no label
    for, is [N] bytes ([ULONG_MAX] at most): the number is not scaled. *)
Theorem memory_absolute_unitless w ds ws tail mem_total :
  ds <> "" ->
  all_chars Libc.isdigit ds = true ->
  all_chars Libc.isspace ws = true ->
  unitless tail ->
  memory_absolute w (ds ++ ws ++ tail) mem_total
  = Z.min (decimal_value ds) (Libc.ULONG_MAX w).
Proof.
  intros Hne Hds Hws Htail. destruct tail as [|c rest].
  - unfold memory_absolute.
    rewrite strtoul_digits
      by (trivial; apply spaces_no_digit; trivial).
    cbv beta iota zeta. rewrite skip_spaces_app by exact Hws. reflexivity.
  - destruct Htail as [Hsp [Hdg [Hpow Hpct]]].
    change (ds ++ ws ++ String c rest) with (threshold_spec ds ws c rest).
    rewrite memory_absolute_parse by assumption. cbv zeta.
    destruct c as [[|] [|] [|] [|] [|] [|] [|] [|]];
      try reflexivity; try discriminate Hpow.
    exfalso. apply Hpct. reflexivity.
Qed.

Lemma memory_absolute_unitless_witness :
  memory_absolute 64 ("4096" ++ " " ++ "bytes") 0
  = Z.min (decimal_value "4096") (Libc.ULONG_MAX 64).
Proof.
  apply (memory_absolute_unitless 64 "4096" " " "bytes" 0);
    [discriminate | reflexivity | reflexivity | repeat split; discriminate].
Defined.

Lemma strtoul_numberless w spec :
  numberless spec -> Libc.strtoul w spec = (0, spec).
Proof.
  intros [ws [body [-> [Hws Hbody]]]]. unfold Libc.strtoul.
  rewrite skip_spaces_app by exact Hws.
  destruct body as [|c tail]; [reflexivity|].
  destruct Hbody as [Hsp Hbody].
  rewrite (skip_spaces_char c tail Hsp).
  destruct c as [[|] [|] [|] [|] [|] [|] [|] [|]];
    cbn [Ascii.eqb Bool.eqb orb andb] in Hbody;
    cbn [Libc.starts_with_digit]; rewrite Hbody; reflexivity.
Qed.

(** Every label of the [switch] maps the amount 0 to 0. *)
Lemma switch_zero w mem_total endptr :
  match endptr with
  | String "T" _ | String "t" _ => case_T w 0
  | String "G" _ | String "g" _ => case_G w 0
  | String "M" _ | String "m" _ => case_M w 0
  | String "K" _ | String "k" _ => case_K w 0
  | String "%" _ => case_percent w mem_total 0
  | _ => 0
  end = 0.
Proof.
  assert (HK : case_K w 0 = 0) by (rewrite case_K_value; apply Zmod_0_l).
  assert (HM : case_M w 0 = 0) by (rewrite case_M_value; apply Zmod_0_l).
  assert (HG : case_G w 0 = 0) by (rewrite case_G_value; apply Zmod_0_l).
  assert (HT : case_T w 0 = 0) by (rewrite case_T_value; apply Zmod_0_l).
  assert (HP : case_percent w mem_total 0 = 0)
    by (unfold case_percent; rewrite Z.mul_0_r, Zmod_0_l; reflexivity).
  destruct endptr as [|c rest]; [reflexivity|].
  destruct c as [[|] [|] [|] [|] [|] [|] [|] [|]]; trivial.
Qed.

(** X2.  A threshold without a number resolves to 0, whatever unit it
    names, so it is never met: no available memory is below it. *)
Theorem memory_absolute_numberless w spec s :
  numberless spec ->
  0 <= available s ->
  memory_absolute w spec (total s) = 0 /\
  ~ below w (Some spec) s.
Proof.
  intros Hspec Havail.
  assert (E : memory_absolute w spec (total s) = 0).
  { unfold memory_absolute. rewrite (strtoul_numberless w spec Hspec).
    cbv beta iota zeta. apply switch_zero. }
  split; [exact E|].
  intros [spec' [Hsome Hlt]]. injection Hsome as <-. lia.
Qed.

Lemma memory_absolute_numberless_witness :
  memory_absolute 64 " -G"
    (total {| total := 4096; free := 0; available := 0;
              buffers := 0; cached := 0; shared := 0 |}) = 0 /\
  ~ below 64 (Some " -G")
      {| total := 4096; free := 0; available := 0;
         buffers := 0; cached := 0; shared := 0 |}.
Proof.
  apply (memory_absolute_numberless 64 " -G"
           {| total := 4096; free := 0; available := 0;
              buffers := 0; cached := 0; shared := 0 |}).
  - exists " ", "-G". repeat split; reflexivity.
  - cbn [available]. lia.
Defined.





(** ** [print_bytes_human]: the symbol and the number *)

Lemma format_f_abs_comp precision q q' :
  (q == q')%Q ->
  Printf.format_f_abs precision q = Printf.format_f_abs precision q'.
Proof.
  intros E. unfold Printf.format_f_abs. cbv zeta.
  rewrite (DoubleFacts.round_half_even_comp
             (q * inject_Z (10 ^ (if precision <? 0 then 6 else precision)))
             (q' * inject_Z (10 ^ (if precision <? 0 then 6 else precision))))
    by (apply Qmult_comp; [exact E | reflexivity]).
  reflexivity.
Qed.

(** The text of a [double] depends on its value alone. *)
Lemma format_f_comp precision q q' :
  (q == q')%Q -> Printf.format_f precision q = Printf.format_f precision q'.
Proof.
  intros E. unfold Printf.format_f.
  rewrite (Qcompare_comp q q' E 0%Q 0%Q ltac:(reflexivity)).
  destruct (Qcompare q' 0); try (apply format_f_abs_comp; exact E).
  f_equal. apply format_f_abs_comp. rewrite E. reflexivity.
Qed.

Lemma scale_loop_bound fuel unit base exponent :
  (snd (scale_loop fuel unit base exponent) <= exponent + fuel)%nat.
Proof.
  revert base exponent.
  induction fuel as [|fuel IH]; intros base exponent; cbn [scale_loop].
  - cbn [snd]. lia.
  - destruct (Qle_bool (inject_Z BINARY_BASE) base
              && (exponent <? MAX_EXPONENT)%nat)%bool;
      [|cbn [snd]; lia].
    destruct (Libc.strcasecmp_eq unit (symbol exponent)); [cbn [snd]; lia|].
    specialize (IH (Double.div base (inject_Z BINARY_BASE)) (S exponent)).
    lia.
Qed.

(** What [print_bytes_human] writes, by the exponent that its loop ends
    with. *)
Lemma print_bytes_human_run bytes unit decimals :
  exists e,
    print_bytes_human bytes unit decimals
    = Printf.format_f decimals (divided bytes e) ++ " " ++ symbol e /\
    (e <= MAX_EXPONENT)%nat /\
    ~ goes_on bytes unit e /\
    forall j, (j < e)%nat -> goes_on bytes unit j.
Proof.
  destruct (scale_loop_stops MAX_EXPONENT unit bytes 0)
    as [e [Hrun [_ [Hstop Hbefore]]]]; [reflexivity|].
  pose proof (scale_loop_bound MAX_EXPONENT unit (divided bytes 0) 0)
    as Hbound.
  rewrite Hrun in Hbound. cbn [snd] in Hbound.
  exists e. unfold print_bytes_human.
  change (Double.of_ulong bytes) with (divided bytes 0).
  rewrite Hrun.
  split; [reflexivity | split; [lia | split; [exact Hstop|]]].
  intros j Hj. apply Hbefore. lia.
Qed.

Lemma symbol_listed e : (e <= MAX_EXPONENT)%nat -> In (symbol e) iec_symbols.
Proof.
  intros H. unfold symbol. apply nth_In.
  unfold MAX_EXPONENT in H. cbn in *. lia.
Qed.

(** X4.  [print_bytes_human] never leaves the table of symbols: the
    exponent it ends with is at most [MAX_EXPONENT], and the number it
    writes is the byte count, converted to [double], over [1024^e]; for a
    byte count below [2^53] that is the exact quotient, with no error from
    the floating point. *)
Theorem human_readable_exact bytes unit decimals :
  0 <= bytes ->
  exists e,
    (e <= MAX_EXPONENT)%nat /\
    In (symbol e) iec_symbols /\
    print_bytes_human bytes unit decimals
    = Printf.format_f decimals
        (Double.of_ulong bytes / inject_Z (1024 ^ Z.of_nat e))
      ++ " " ++ symbol e /\
    (bytes < 2 ^ 53 ->
     print_bytes_human bytes unit decimals
     = Printf.format_f decimals
         (inject_Z bytes / inject_Z (1024 ^ Z.of_nat e))
       ++ " " ++ symbol e).
Proof.
  intros Hbytes.
  destruct (print_bytes_human_run bytes unit decimals)
    as [e [Hprint [Hmax _]]].
  exists e. split; [exact Hmax|]. split; [apply symbol_listed; exact Hmax|].
  pose proof (divided_exact bytes e Hbytes) as Hexact.
  split.
  - rewrite Hprint, (format_f_comp decimals _ _ Hexact). reflexivity.
  - intros Hsmall. rewrite Hprint. f_equal.
    apply format_f_comp. rewrite Hexact.
    rewrite (DoubleFacts.of_ulong_exact bytes) by lia. reflexivity.
Qed.

Lemma human_readable_exact_witness :
  exists e,
    (e <= MAX_EXPONENT)%nat /\
    In (symbol e) iec_symbols /\
    print_bytes_human 1536 "auto" 2
    = Printf.format_f 2
        (Double.of_ulong 1536 / inject_Z (1024 ^ Z.of_nat e))
      ++ " " ++ symbol e /\
    (1536 < 2 ^ 53 ->
     print_bytes_human 1536 "auto" 2
     = Printf.format_f 2 (inject_Z 1536 / inject_Z (1024 ^ Z.of_nat e))
       ++ " " ++ symbol e).
Proof. apply (human_readable_exact 1536 "auto" 2). lia. Defined.

(** X5.  The unit of the configuration is a cap: when it is the symbol of
    the exponent [k], compared without case, the loop ends at [k] or
    before. *)
Theorem human_readable_cap bytes unit decimals k :
  Libc.strcasecmp_eq unit (symbol k) = true ->
  exists e,
    (e <= k)%nat /\
    print_bytes_human bytes unit decimals
    = Printf.format_f decimals (divided bytes e) ++ " " ++ symbol e.
Proof.
  intros Hunit.
  destruct (print_bytes_human_run bytes unit decimals)
    as [e [Hprint [_ [_ Hbefore]]]].
  exists e. split; [|exact Hprint].
  destruct (Nat.le_gt_cases e k) as [H|H]; [exact H|].
  destruct (Hbefore k H) as [_ [_ Hk]]. congruence.
Qed.

Lemma human_readable_cap_witness :
  exists e,
    (e <= 1)%nat /\
    print_bytes_human 1073741824 "kib" 0
    = Printf.format_f 0 (divided 1073741824 e) ++ " " ++ symbol e.
Proof. apply (human_readable_cap 1073741824 "kib" 0 1). reflexivity. Defined.





(** X7.  A byte count below 1024 is written in bytes whatever unit the
    configuration names: the unit does not force a larger symbol. *)
Theorem human_readable_small bytes unit decimals :
  0 <= bytes < 1024 ->
  print_bytes_human bytes unit decimals
  = Printf.format_f decimals (inject_Z bytes) ++ " B".
Proof.
  intros Hbytes.
  assert (Hexact : (Double.of_ulong bytes == inject_Z bytes)%Q)
    by (apply DoubleFacts.of_ulong_exact; lia).
  unfold print_bytes_human. change MAX_EXPONENT with 4%nat.
  cbn [scale_loop].
  replace (Qle_bool (inject_Z BINARY_BASE) (Double.of_ulong bytes))
    with false.
  - cbn [andb]. rewrite (format_f_comp decimals _ _ Hexact). reflexivity.
  - symmetry. destruct (Qle_bool (inject_Z BINARY_BASE)
                          (Double.of_ulong bytes)) eqn:E; [|reflexivity].
    apply Qle_bool_iff in E. rewrite Hexact in E.
    unfold BINARY_BASE in E. rewrite <- Zle_Qle in E. lia.
Qed.

Lemma human_readable_small_witness :
  print_bytes_human 512 "MiB" 1 = Printf.format_f 1 (inject_Z 512) ++ " B".
Proof. apply (human_readable_small 512 "MiB" 1). lia. Defined.

(** ** The walk over the format *)

Section Rendering.

Variables pct_mark inf_text nan_text : string.
Variable s : snapshot.
Variables unit : string.
Variable decimals : Z.

Local Abbreviation walk ram_used :=
  (walk_format pct_mark inf_text nan_text s ram_used unit decimals).
Local Abbreviation place ram_used :=
  (placeholder pct_mark inf_text nan_text s ram_used unit decimals).

Lemma advance_append p rest : advance (String.length p) (p ++ rest) = rest.
Proof.
  induction p as [|c p IH]; [destruct rest; reflexivity | exact IH].
Qed.

Lemma append_empty text : text ++ "" = text.
Proof.
  induction text as [|c text IH]; [reflexivity|].
  cbn [append]. rewrite IH. reflexivity.
Qed.

Lemma walk_literal ram_used text rest :
  literal text = true ->
  walk ram_used O (text ++ rest)
  = (tail <- walk ram_used O rest ;; Defined (text ++ tail)).
Proof.
  unfold literal. induction text as [|c text IH]; intros H.
  - cbn [append]. destruct (walk ram_used O rest); reflexivity.
  - cbn [all_chars] in H. apply andb_prop in H. destruct H as [Hc Htext].
    cbn [append walk_format].
    destruct (Ascii.eqb c "%"); [discriminate Hc|].
    rewrite (IH Htext).
    destruct (walk ram_used O rest); reflexivity.
Qed.

Lemma walk_literal_only ram_used text :
  literal text = true -> walk ram_used O text = Defined text.
Proof.
  intros H. pose proof (walk_literal ram_used text "" H) as E.
  cbn [walk_format bind] in E. rewrite append_empty in E. exact E.
Qed.

Lemma placeholder_token ram_used token rest :
  In token tokens ->
  place ram_used (token ++ rest)
  = (value <- token_value pct_mark inf_text nan_text s ram_used unit
                decimals token ;;
     Defined (value, String.length token)).
Proof.
  intros Hin. unfold tokens in Hin. cbn [In] in Hin.
  unfold placeholder, BEGINS_WITH.
  repeat (destruct Hin as [<- | Hin];
    [repeat match goal with
     | |- context [String.prefix ?a (?b ++ rest)] =>
         first [ change (String.prefix a (b ++ rest)) with false
               | rewrite (prefix_append b rest) ]
     end;
     cbv iota; unfold token_value; cbn [String.eqb Ascii.eqb Bool.eqb andb];
     destruct ram_used; reflexivity|]).
  contradiction.
Qed.

Lemma walk_token ram_used token rest :
  In token tokens ->
  walk ram_used O (String "%" (token ++ rest))
  = (value <- token_value pct_mark inf_text nan_text s ram_used unit
                decimals token ;;
     tail <- walk ram_used O rest ;;
     Defined (value ++ tail)).
Proof.
  intros Hin. cbn [walk_format]. change (Ascii.eqb "%" "%") with true.
  cbv iota. rewrite (placeholder_token ram_used token rest Hin).
  destruct (token_value pct_mark inf_text nan_text s ram_used unit decimals
              token) as [value|]; [|reflexivity].
  cbn [bind fst snd]. rewrite walk_format_skip, advance_append.
  reflexivity.
Qed.

Lemma placeholder_defined used after :
  exists step, place (Some used) after = Defined step.
Proof.
  unfold placeholder. cbn [read bind].
  repeat match goal with
  | |- context [BEGINS_WITH after ?t] => destruct (BEGINS_WITH after t)
  end; eexists; reflexivity.
Qed.

Lemma walk_defined used skip format :
  exists text, walk (Some used) skip format = Defined text.
Proof.
  revert skip. induction format as [|c rest IH]; intros skip.
  - exists "". destruct skip; reflexivity.
  - cbn [walk_format]. destruct skip as [|skip]; [|apply IH].
    destruct (Ascii.eqb c "%").
    + destruct (placeholder_defined used rest) as [step ->]. cbn [bind].
      destruct (IH (snd step)) as [text ->]. eexists. reflexivity.
    + destruct (IH O) as [text ->]. eexists. reflexivity.
Qed.

Lemma placeholder_without_used after :
  BEGINS_WITH after "used" = false ->
  BEGINS_WITH after "percentage_used" = false ->
  exists step, forall ram_used, place ram_used after = Defined step.
Proof.
  intros Hused Hpct. unfold placeholder. rewrite Hused, Hpct.
  repeat match goal with
  | |- context [BEGINS_WITH after ?t] => destruct (BEGINS_WITH after t)
  end; eexists; intros; reflexivity.
Qed.

Lemma mentions_tail needle c rest :
  ~ mentions needle (String c rest) -> ~ mentions needle rest.
Proof.
  intros H [pre [post ->]]. apply H. exists (String c pre), post.
  reflexivity.
Qed.

Lemma mentions_head token after :
  ~ mentions (String "%" token) (String "%" after) ->
  BEGINS_WITH after token = false.
Proof.
  intros H. unfold BEGINS_WITH.
  destruct (String.prefix token after) eqn:E; [|reflexivity].
  apply prefix_split in E. destruct E as [tail ->].
  exfalso. apply H. exists "", tail. reflexivity.
Qed.

Lemma walk_without_used skip format :
  ~ mentions "%used" format ->
  ~ mentions "%percentage_used" format ->
  exists text, forall ram_used, walk ram_used skip format = Defined text.
Proof.
  revert skip. induction format as [|c rest IH]; intros skip Hused Hpct.
  - exists "". intros. destruct skip; reflexivity.
  - pose proof (mentions_tail _ _ _ Hused) as Hused'.
    pose proof (mentions_tail _ _ _ Hpct) as Hpct'.
    cbn [walk_format]. destruct skip as [|skip]; [|apply IH; assumption].
    destruct (Ascii.eqb_spec c "%") as [->|Hc].
    + destruct (placeholder_without_used rest
                  (mentions_head _ _ Hused) (mentions_head _ _ Hpct))
        as [step Hstep].
      destruct (IH (snd step) Hused' Hpct') as [text Htext].
      exists (fst step ++ text). intros ram_used.
      rewrite Hstep. cbn [bind]. rewrite Htext. reflexivity.
    + destruct (IH O Hused' Hpct') as [text Htext].
      exists (String c text). intros ram_used.
      rewrite Htext. reflexivity.
Qed.

End Rendering.

(** X8.  After a successful read, a format without a percent sign is
    written as it is, between the colour marks when a threshold is met:
    the method, the unit and the decimals play no part. *)
Theorem literal_format w pct_mark start_color end_color inf_text nan_text
    h s format format_degraded threshold_degraded threshold_critical
    memory_used_method unit decimals :
  read_memory w h = Defined (ReadOk s) ->
  let state := select_color w threshold_degraded threshold_critical s in
  let selected := select_format state format format_degraded in
  literal selected = true ->
  print_memory w pct_mark start_color end_color inf_text nan_text
    h format format_degraded threshold_degraded threshold_critical
    memory_used_method unit decimals
  = Defined {| full_text :=
                 match state with
                 | Some name => start_color name ++ selected ++ end_color
                 | None => selected
                 end;
               color := state;
               diagnostic := "" |}.
Proof.
  intros Hread state selected Hliteral.
  rewrite (print_memory_rendered w pct_mark start_color end_color inf_text
             nan_text h s format format_degraded threshold_degraded
             threshold_critical memory_used_method unit decimals Hread).
  cbv zeta. fold state. fold selected.
  rewrite (walk_literal_only pct_mark inf_text nan_text s unit decimals
             _ selected Hliteral).
  reflexivity.
Qed.

Lemma literal_format_witness :
  print_memory 64 "%" (fun name => "<" ++ name ++ ">") "</>" "inf" "nan"
    (FreeBSD (Some 4096) (Some 8192) (Some 1))
    "memory" (Some "low memory") (Some "1K") None "neither" "auto" 1
  = Defined {| full_text := "<color_degraded>low memory</>";
               color := Some "color_degraded";
               diagnostic := "" |}.
Proof.
  apply (literal_format 64 "%" (fun name => "<" ++ name ++ ">") "</>"
           "inf" "nan" (FreeBSD (Some 4096) (Some 8192) (Some 1))
           {| total := 8192; free := 4096; available := 0;
              buffers := 0; cached := 0; shared := 0 |}
           "memory" (Some "low memory") (Some "1K") None "neither" "auto" 1);
    reflexivity.
Defined.

(** X9.  A percent sign followed by the name of a placeholder is
    replaced by the value of the placeholder, and the walk goes on right
    after the name, whatever follows it: names are matched as prefixes. *)
Theorem known_placeholder pct_mark inf_text nan_text s ram_used unit decimals
    token rest :
  In token tokens ->
  walk_format pct_mark inf_text nan_text s ram_used unit decimals O
    (String "%" (token ++ rest))
  = (value <- token_value pct_mark inf_text nan_text s ram_used unit
                decimals token ;;
     tail <- walk_format pct_mark inf_text nan_text s ram_used unit
               decimals O rest ;;
     Defined (value ++ tail)).
Proof. apply walk_token. Qed.

Lemma known_placeholder_witness :
  let s := {| total := 8192; free := 4096; available := 0;
              buffers := 0; cached := 0; shared := 0 |} in
  walk_format "%" "inf" "nan" s None "auto" 1 O
    (String "%" ("free" ++ "dom"))
  = (value <- token_value "%" "inf" "nan" s None "auto" 1 "free" ;;
     tail <- walk_format "%" "inf" "nan" s None "auto" 1 O "dom" ;;
     Defined (value ++ tail)).
Proof.
  apply (known_placeholder "%" "inf" "nan"
           {| total := 8192; free := 4096; available := 0;
              buffers := 0; cached := 0; shared := 0 |}
           None "auto" 1 "free" "dom").
  unfold tokens. cbn [In]. tauto.
Defined.

(** X10.  The method matters only for the used memory: when the format
    rendered mentions neither the placeholder of the used memory nor the
    one of its percentage, a successful read gives the same defined
    outcome under every method name, a valid one or not. *)
Theorem method_unused w pct_mark start_color end_color inf_text nan_text
    h s format format_degraded threshold_degraded threshold_critical
    unit decimals :
  read_memory w h = Defined (ReadOk s) ->
  let state := select_color w threshold_degraded threshold_critical s in
  let selected := select_format state format format_degraded in
  ~ mentions "%used" selected ->
  ~ mentions "%percentage_used" selected ->
  exists text,
    forall memory_used_method,
      print_memory w pct_mark start_color end_color inf_text nan_text
        h format format_degraded threshold_degraded threshold_critical
        memory_used_method unit decimals
      = Defined {| full_text :=
                     match state with
                     | Some name => start_color name ++ text ++ end_color
                     | None => text
                     end;
                   color := state;
                   diagnostic := "" |}.
Proof.
  intros Hread state selected Hused Hpct.
  destruct (walk_without_used pct_mark inf_text nan_text s unit decimals
              O selected Hused Hpct) as [text Htext].
  exists text. intros memory_used_method.
  rewrite (print_memory_rendered w pct_mark start_color end_color inf_text
             nan_text h s format format_degraded threshold_degraded
             threshold_critical memory_used_method unit decimals Hread).
  cbv zeta. fold state. fold selected. rewrite Htext. reflexivity.
Qed.

(** X11.  With a method name that begins with memavailable or with
    classical, every successful read is rendered: the outcome is defined,
    carries the selected colour and has no diagnostic. *)
Theorem valid_method_renders w pct_mark start_color end_color inf_text
    nan_text h s format format_degraded threshold_degraded
    threshold_critical memory_used_method unit decimals :
  read_memory w h = Defined (ReadOk s) ->
  (exists tail,
     memory_used_method = "memavailable" ++ tail \/
     memory_used_method = "classical" ++ tail) ->
  let state := select_color w threshold_degraded threshold_critical s in
  exists text,
    print_memory w pct_mark start_color end_color inf_text nan_text
      h format format_degraded threshold_degraded threshold_critical
      memory_used_method unit decimals
    = Defined {| full_text :=
                   match state with
                   | Some name => start_color name ++ text ++ end_color
                   | None => text
                   end;
                 color := state;
                 diagnostic := "" |}.
Proof.
  intros Hread [tail Hmethod] state.
  assert (Hused : exists used,
            used_memory w memory_used_method s = Some used).
  { destruct Hmethod as [-> | ->].
    - rewrite used_memavailable. eexists. reflexivity.
    - rewrite used_classical. eexists. reflexivity. }
  destruct Hused as [used Hused].
  destruct (walk_defined pct_mark inf_text nan_text s unit decimals used O
              (select_format state format format_degraded)) as [text Htext].
  exists text.
  rewrite (print_memory_rendered w pct_mark start_color end_color inf_text
             nan_text h s format format_degraded threshold_degraded
             threshold_critical memory_used_method unit decimals Hread).
  cbv zeta. fold state. rewrite Hused, Htext. reflexivity.
Qed.

Lemma method_unused_witness :
  exists text,
    forall memory_used_method,
      print_memory 64 "%" (fun name => name) "" "inf" "nan"
        (FreeBSD (Some 4096) (Some 8192) (Some 1))
        "%free" None None None memory_used_method "auto" 1
      = Defined {| full_text := text; color := None; diagnostic := "" |}.
Proof.
  apply (method_unused 64 "%" (fun name => name) "" "inf" "nan"
           (FreeBSD (Some 4096) (Some 8192) (Some 1))
           {| total := 8192; free := 4096; available := 0;
              buffers := 0; cached := 0; shared := 0 |}
           "%free" None None None "auto" 1);
    [reflexivity | |];
    intros [pre [post E]]; cbn in E;
    repeat (destruct pre as [|? pre]; cbn [append] in E;
            [discriminate E | injection E as _ E]);
    destruct pre; discriminate E.
Defined.

Lemma valid_method_renders_witness :
  exists text,
    print_memory 64 "%" (fun name => name) "" "inf" "nan"
      (FreeBSD (Some 4096) (Some 8192) (Some 1))
      "%used of %total" None None None "classical" "auto" 1
    = Defined {| full_text := text; color := None; diagnostic := "" |}.
Proof.
  apply (valid_method_renders 64 "%" (fun name => name) "" "inf" "nan"
           (FreeBSD (Some 4096) (Some 8192) (Some 1))
           {| total := 8192; free := 4096; available := 0;
              buffers := 0; cached := 0; shared := 0 |}
           "%used of %total" None None None "classical" "auto" 1);
    [reflexivity|].
  exists "". right. reflexivity.
Defined.

(** ** The loop over the lines *)

(** X12.  Lines that start with no label play no part in the reading:
    the loop over the lines of the file ends as the loop over its
    labelled lines does. *)
Theorem unlabelled_lines_skipped w lines c unread_fields :
  read_fields w lines c unread_fields
  = read_fields w (filter labelled lines) c unread_fields.
Proof.
  revert c unread_fields.
  induction lines as [|line lines IH]; intros c u; [reflexivity|].
  cbn [read_fields filter].
  pose proof (assign_field_labelled w c line) as Hline.
  destruct (assign_field w c line) as [c'|] eqn:E; rewrite Hline.
  - cbn [read_fields]. rewrite E.
    destruct (u - 1 =? 0); [reflexivity | apply IH].
  - apply IH.
Qed.

Lemma read_fields_break w pre post c unread_fields :
  0 < unread_fields <= Z.of_nat (matching_lines pre) ->
  read_fields w (pre ++ post) c unread_fields
  = read_fields w pre c unread_fields.
Proof.
  revert c unread_fields.
  induction pre as [|line pre IH]; intros c u Hu.
  - unfold matching_lines in Hu. cbn in Hu. lia.
  - cbn [app read_fields].
    pose proof (assign_field_labelled w c line) as Hline.
    unfold matching_lines in *. cbn [filter] in Hu.
    destruct (assign_field w c line) as [c'|]; rewrite Hline in Hu.
    + destruct (Z.eqb_spec (u - 1) 0); [reflexivity|].
      apply IH. cbn [List.length] in Hu. lia.
    + apply IH. exact Hu.
Qed.

(** X13.  The loop stops at the sixth labelled line: whatever follows the
    lines that hold [unread_fields] labelled ones is not looked at. *)
Theorem reading_stops w pre post c unread_fields :
  0 < unread_fields <= Z.of_nat (matching_lines pre) ->
  read_fields w (pre ++ post) c unread_fields
  = read_fields w pre c unread_fields.
Proof. apply read_fields_break. Qed.

Lemma reading_stops_witness :
  let line := "Cached: 7 kB" ++ String newline "" in
  read_fields 64 ([line; line] ++ ["MemTotal: 9 kB"]) unassigned 2
  = read_fields 64 [line; line] unassigned 2.
Proof.
  apply (reading_stops 64
           ["Cached: 7 kB" ++ String newline "";
            "Cached: 7 kB" ++ String newline ""]
           ["MemTotal: 9 kB"] unassigned 2).
  vm_compute. split; [reflexivity | discriminate].
Defined.

Lemma labels_exclusive line a b :
  In a labels -> In b labels ->
  BEGINS_WITH line a = true -> BEGINS_WITH line b = true -> a = b.
Proof.
  unfold BEGINS_WITH. intros Ha Hb Hpa Hpb.
  apply prefix_split in Hpa. destruct Hpa as [ta ->].
  apply prefix_split in Hpb. destruct Hpb as [tb E].
  unfold labels in Ha, Hb. cbn [In] in Ha, Hb.
  repeat (destruct Ha as [<- | Ha]; [|]); try contradiction;
    repeat (destruct Hb as [<- | Hb]; [|]); try contradiction;
    first [reflexivity | cbn [append] in E; congruence].
Qed.

Lemma assign_field_label w c line label :
  In label labels ->
  BEGINS_WITH line label = true ->
  exists c',
    assign_field w c line = Some c' /\
    counter_of label c' = Some (field w line label).
Proof.
  intros Hin Hline.
  assert (Hother : forall other,
            In other labels -> other <> label ->
            BEGINS_WITH line other = false).
  { intros other Ho Hne. destruct (BEGINS_WITH line other) eqn:E;
      [|reflexivity].
    exfalso. apply Hne. apply (labels_exclusive line); assumption. }
  unfold labels in Hin. cbn [In] in Hin. unfold assign_field.
  repeat (destruct Hin as [<- | Hin];
    [repeat match goal with
     | |- context [BEGINS_WITH line ?l] =>
         first [ rewrite Hline
               | rewrite (Hother l)
                   by (unfold labels; cbn [In]; first [tauto | discriminate])]
     end;
     eexists; split; reflexivity|]).
  contradiction.
Qed.

Lemma strtoul_leading_spaces w ws rest :
  all_chars Libc.isspace ws = true ->
  fst (Libc.strtoul w (ws ++ rest)) = fst (Libc.strtoul w rest).
Proof.
  intros Hws. unfold Libc.strtoul. rewrite skip_spaces_app by exact Hws.
  destruct (match Libc.skip_spaces rest with
            | String "-" tail => (true, tail)
            | String "+" tail => (false, tail)
            | _ => (false, Libc.skip_spaces rest)
            end) as [negative body].
  destruct (Libc.starts_with_digit body); [|reflexivity].
  destruct (Libc.scan_digits 0 body) as [n endptr].
  destruct (Libc.ULONG_MAX w <? n); [reflexivity|].
  destruct negative; reflexivity.
Qed.

Lemma other_label_unseen line label other :
  In label labels -> In other labels -> other <> label ->
  BEGINS_WITH line label = true -> BEGINS_WITH line other = false.
Proof.
  intros Hl Ho Hne Hline.
  destruct (BEGINS_WITH line other) eqn:E; [|reflexivity].
  exfalso. apply Hne. apply (labels_exclusive line); assumption.
Qed.

(** X14.  A line made of a label, white space and the digits of a number
    [N] sets the counter of the label to [N] ([ULONG_MAX] at most) and
    leaves the other five counters as they are; what follows the digits,
    the unit kB or anything else, is not looked at. *)
Theorem labelled_line_assigns w c label ws ds tail :
  In label labels ->
  all_chars Libc.isspace ws = true ->
  ds <> "" ->
  all_chars Libc.isdigit ds = true ->
  Libc.starts_with_digit tail = false ->
  exists c',
    assign_field w c (label ++ ws ++ ds ++ tail) = Some c' /\
    counter_of label c'
    = Some (Z.min (decimal_value ds) (Libc.ULONG_MAX w)) /\
    forall other,
      In other labels -> other <> label ->
      counter_of other c' = counter_of other c.
Proof.
  intros Hin Hws Hne Hds Htail.
  assert (Hline : BEGINS_WITH (label ++ ws ++ ds ++ tail) label = true)
    by apply prefix_append.
  destruct (assign_field_label w c _ label Hin Hline) as [c' [Hc' Hvalue]].
  exists c'. split; [exact Hc'|]. split.
  - rewrite Hvalue. unfold field.
    rewrite advance_append, strtoul_leading_spaces by exact Hws.
    rewrite strtoul_digits by assumption. reflexivity.
  - intros other Ho Hother.
    apply (assign_field_other w c c' (label ++ ws ++ ds ++ tail) other Ho);
      [|exact Hc'].
    apply (other_label_unseen _ label); assumption.
Qed.

Lemma labelled_line_assigns_witness :
  exists c',
    assign_field 64 unassigned ("MemFree:" ++ "   " ++ "1234" ++ " MB")
    = Some c' /\
    counter_of "MemFree:" c'
    = Some (Z.min (decimal_value "1234") (Libc.ULONG_MAX 64)) /\
    forall other,
      In other labels -> other <> "MemFree:" ->
      counter_of other c' = counter_of other unassigned.
Proof.
  apply (labelled_line_assigns 64 unassigned "MemFree:" "   " "1234" " MB");
    [unfold labels; cbn [In]; tauto | reflexivity | discriminate
    | reflexivity | reflexivity].
Defined.

(** The counter of a label after the loop is the number of the last line
    with the label, when the loop sees all the lines. *)
Lemma read_fields_last w label pre line post c unread_fields :
  In label labels ->
  BEGINS_WITH line label = true ->
  never_seen label post ->
  0 < unread_fields ->
  Z.of_nat (matching_lines (pre ++ line :: post)) <= unread_fields ->
  counter_of label
    (fst (read_fields w (pre ++ line :: post) c unread_fields))
  = Some (field w line label).
Proof.
  intros Hin Hline Hpost. revert c unread_fields.
  assert (Hlabelled : labelled line = true).
  { destruct (assign_field_label w unassigned line label Hin Hline)
      as [c' [E _]].
    pose proof (assign_field_labelled w unassigned line) as H.
    rewrite E in H. exact H. }
  induction pre as [|first pre IH]; intros c u Hu Hcount.
  - cbn [app read_fields].
    destruct (assign_field_label w c line label Hin Hline)
      as [c' [-> Hvalue]].
    destruct (u - 1 =? 0); [exact Hvalue|].
    rewrite read_fields_never_seen by assumption. exact Hvalue.
  - cbn [app read_fields]. unfold matching_lines in *.
    cbn [app filter] in Hcount.
    pose proof (assign_field_labelled w c first) as Hfirst.
    destruct (assign_field w c first) as [c'|]; rewrite Hfirst in Hcount.
    + cbn [List.length] in Hcount.
      assert (Hone : (1 <= List.length (filter labelled (pre ++ line :: post)))%nat).
      { rewrite filter_app, length_app. cbn [filter].
        rewrite Hlabelled. cbn [List.length]. lia. }
      destruct (Z.eqb_spec (u - 1) 0); [lia|].
      apply IH; lia.
    + apply IH; assumption.
Qed.

(** X15.  When the first six labelled lines of [/proc/meminfo] carry the
    six labels, the read succeeds, and each counter is 1024 times the
    number of the line with its label, in [unsigned long]; the lines after
    them are not looked at. *)
Theorem complete_read w stream seen ignored
    line_total line_free line_available line_buffers line_cached
    line_shared :
  file_lines stream = (seen ++ ignored)%list ->
  matching_lines seen = 6%nat ->
  last_with "MemTotal:" seen line_total ->
  last_with "MemFree:" seen line_free ->
  last_with "MemAvailable:" seen line_available ->
  last_with "Buffers:" seen line_buffers ->
  last_with "Cached:" seen line_cached ->
  last_with "Shmem:" seen line_shared ->
  read_memory w (Linux (Some stream))
  = Defined (ReadOk
      {| total := (field w line_total "MemTotal:" * 1024) mod 2 ^ w;
         free := (field w line_free "MemFree:" * 1024) mod 2 ^ w;
         available :=
           (field w line_available "MemAvailable:" * 1024) mod 2 ^ w;
         buffers := (field w line_buffers "Buffers:" * 1024) mod 2 ^ w;
         cached := (field w line_cached "Cached:" * 1024) mod 2 ^ w;
         shared := (field w line_shared "Shmem:" * 1024) mod 2 ^ w |}).
Proof.
  intros Hlines Hsix Ht Hf Ha Hb Hc Hs.
  assert (Hlast : forall label line,
            In label labels -> last_with label seen line ->
            counter_of label (fst (read_fields w seen unassigned 6))
            = Some (field w line label)).
  { intros label line Hin [pre [post [E [Hline Hpost]]]].
    rewrite E. apply read_fields_last; trivial; [lia|].
    rewrite <- E, Hsix. lia. }
  pose proof (read_fields_unread w seen unassigned 6 ltac:(lia)) as Hunread.
  rewrite Hsix in Hunread.
  cbn [read_memory]. unfold read_meminfo. rewrite Hlines.
  rewrite read_fields_break by (rewrite Hsix; lia).
  assert (Hin : forall label,
            existsb (String.eqb label) labels = true -> In label labels).
  { intros label H. apply existsb_exists in H.
    destruct H as [l [Hl E]]. apply String.eqb_eq in E. subst. exact Hl. }
  pose proof (Hlast _ _ (Hin "MemTotal:" eq_refl) Ht) as Et.
  pose proof (Hlast _ _ (Hin "MemFree:" eq_refl) Hf) as Ef.
  pose proof (Hlast _ _ (Hin "MemAvailable:" eq_refl) Ha) as Ea.
  pose proof (Hlast _ _ (Hin "Buffers:" eq_refl) Hb) as Eb.
  pose proof (Hlast _ _ (Hin "Cached:" eq_refl) Hc) as Ec.
  pose proof (Hlast _ _ (Hin "Shmem:" eq_refl) Hs) as Es.
  destruct (read_fields w seen unassigned 6) as [c u].
  cbn [fst snd] in *. subst u. change (0 <? Z.max 0 (6 - 6)) with false.
  cbv iota. destruct c as [t f a b ca sh].
  cbn in Et, Ef, Ea, Eb, Ec, Es. subst. reflexivity.
Qed.

Lemma complete_read_witness :
  let nl := String newline "" in
  let l1 := "MemTotal: 8 kB" ++ nl in
  let l2 := "MemFree: 4 kB" ++ nl in
  let l3 := "MemAvailable: 5 kB" ++ nl in
  let l4 := "Buffers: 1 kB" ++ nl in
  let l5 := "Cached: 2 kB" ++ nl in
  let l6 := "SwapCached: 0 kB" ++ nl in
  let l7 := "Shmem: 3 kB" ++ nl in
  let l8 := "Slab: 6 kB" ++ nl in
  read_memory 64
    (Linux (Some (l1 ++ l2 ++ l3 ++ l4 ++ l5 ++ l6 ++ l7 ++ l8)))
  = Defined (ReadOk
      {| total := (field 64 l1 "MemTotal:" * 1024) mod 2 ^ 64;
         free := (field 64 l2 "MemFree:" * 1024) mod 2 ^ 64;
         available := (field 64 l3 "MemAvailable:" * 1024) mod 2 ^ 64;
         buffers := (field 64 l4 "Buffers:" * 1024) mod 2 ^ 64;
         cached := (field 64 l5 "Cached:" * 1024) mod 2 ^ 64;
         shared := (field 64 l7 "Shmem:" * 1024) mod 2 ^ 64 |}).
Proof.
  intros nl l1 l2 l3 l4 l5 l6 l7 l8.
  assert (Hnever : forall label lines,
            forallb (fun line => negb (BEGINS_WITH line label)) lines = true ->
            never_seen label lines).
  { intros label lines H line Hin.
    rewrite forallb_forall in H. specialize (H line Hin).
    destruct (BEGINS_WITH line label); [discriminate H | reflexivity]. }
  apply (complete_read 64 (l1 ++ l2 ++ l3 ++ l4 ++ l5 ++ l6 ++ l7 ++ l8)
           [l1; l2; l3; l4; l5; l6; l7] [l8]).
  - reflexivity.
  - reflexivity.
  - exists [], [l2; l3; l4; l5; l6; l7].
    split; [reflexivity | split; [reflexivity | apply Hnever; reflexivity]].
  - exists [l1], [l3; l4; l5; l6; l7].
    split; [reflexivity | split; [reflexivity | apply Hnever; reflexivity]].
  - exists [l1; l2], [l4; l5; l6; l7].
    split; [reflexivity | split; [reflexivity | apply Hnever; reflexivity]].
  - exists [l1; l2; l3], [l5; l6; l7].
    split; [reflexivity | split; [reflexivity | apply Hnever; reflexivity]].
  - exists [l1; l2; l3; l4], [l6; l7].
    split; [reflexivity | split; [reflexivity | apply Hnever; reflexivity]].
  - exists [l1; l2; l3; l4; l5; l6], [].
    split; [reflexivity | split; [reflexivity | apply Hnever; reflexivity]].
Defined.

(** ** The reader of FreeBSD *)

Lemma to_long_small w x : 0 <= x < 2 ^ (w - 1) -> 0 < w -> to_long w x = x.
Proof.
  intros Hx Hw. unfold to_long.
  assert (Hpow : 2 ^ w = 2 * 2 ^ (w - 1))
    by (rewrite <- Z.pow_succ_r by lia; f_equal; lia).
  rewrite (Z.mod_small x (2 ^ w)) by lia.
  destruct (Z.ltb_spec x (2 ^ (w - 1))); [reflexivity | lia].
Qed.

(** The conversion to [long] and back is the identity. *)
Lemma to_long_back w x : 0 <= x < 2 ^ w -> to_long w x mod 2 ^ w = x.
Proof.
  intros Hx. unfold to_long. rewrite (Z.mod_small x (2 ^ w)) by exact Hx.
  destruct (x <? 2 ^ (w - 1)).
  - apply Z.mod_small. exact Hx.
  - rewrite <- (Z_mod_plus_full (x - 2 ^ w) 1 (2 ^ w)).
    replace (x - 2 ^ w + 1 * 2 ^ w) with x by ring.
    apply Z.mod_small. exact Hx.
Qed.

(** X16.  On FreeBSD, with the three queries answered and the product of
    the free pages and the page size within [long], the total is the
    physical memory, the free memory is that product, and the available,
    buffered, cached and shared memory are 0.  So the used memory of the
    method memavailable is the whole total, and a threshold that resolves
    above 0 is always met, however much memory is free. *)
Theorem freebsd_reading w page_size physmem free_count :
  0 < w ->
  0 <= physmem < 2 ^ w ->
  0 <= page_size < 2 ^ (w - 1) ->
  0 <= free_count < 2 ^ (w - 1) ->
  free_count * page_size < 2 ^ (w - 1) ->
  let s := {| total := physmem; free := free_count * page_size;
              available := 0; buffers := 0; cached := 0; shared := 0 |} in
  read_memory w (FreeBSD (Some page_size) (Some physmem) (Some free_count))
  = Defined (ReadOk s) /\
  used_memory w "memavailable" s = Some physmem /\
  forall threshold_degraded threshold,
    0 < memory_absolute w threshold physmem ->
    select_color w threshold_degraded (Some threshold) s = Some "color_bad".
Proof.
  intros Hw Hphys Hpage Hcount Hprod s.
  assert (Hpow : 2 ^ w = 2 * 2 ^ (w - 1))
    by (rewrite <- Z.pow_succ_r by lia; f_equal; lia).
  split; [|split].
  - cbn [read_memory]. unfold read_sysctl, long_mul.
    rewrite (to_long_small w free_count), (to_long_small w page_size)
      by assumption.
    replace ((- 2 ^ (w - 1) <=? free_count * page_size)
             && (free_count * page_size <? 2 ^ (w - 1)))%bool with true
      by (symmetry; apply andb_true_intro; split;
          [apply Z.leb_le | apply Z.ltb_lt]; nia).
    cbn [bind]. rewrite (to_long_back w physmem Hphys).
    rewrite (Z.mod_small (free_count * page_size)) by nia.
    reflexivity.
  - pose proof (used_memavailable w s "") as E. cbn [append] in E.
    rewrite E. cbn [total available s].
    rewrite Z.sub_0_r, Z.mod_small by exact Hphys. reflexivity.
  - intros threshold_degraded threshold Hpositive.
    apply select_color_critical. exists threshold.
    split; [reflexivity | exact Hpositive].
Qed.

Lemma freebsd_reading_witness :
  let s := {| total := 8589934592; free := 1000 * 4096;
              available := 0; buffers := 0; cached := 0; shared := 0 |} in
  read_memory 64 (FreeBSD (Some 4096) (Some 8589934592) (Some 1000))
  = Defined (ReadOk s) /\
  used_memory 64 "memavailable" s = Some 8589934592 /\
  forall threshold_degraded threshold,
    0 < memory_absolute 64 threshold 8589934592 ->
    select_color 64 threshold_degraded (Some threshold) s
    = Some "color_bad".
Proof.
  apply (freebsd_reading 64 4096 8589934592 1000); lia.
Defined.

(** ** The lines that [fgets] returns *)

Lemma read_line_length room stream :
  (String.length (fst (read_line room stream)) <= room)%nat.
Proof.
  revert stream. induction room as [|room IH]; intros stream.
  - destruct stream; cbn; lia.
  - destruct stream as [|c stream]; [cbn; lia|].
    cbn [read_line]. destruct (Ascii.eqb c newline); [cbn; lia|].
    specialize (IH stream). destruct (read_line room stream) as [line rest].
    cbn [fst String.length] in *. lia.
Qed.

Lemma read_line_nonempty room c stream :
  (1 <= String.length (fst (read_line (S room) (String c stream))))%nat.
Proof.
  cbn [read_line]. destruct (Ascii.eqb c newline); [cbn; lia|].
  destruct (read_line room stream) as [line rest]. cbn. lia.
Qed.

(** X17.  The lines that the loop reads are the file cut into pieces: put
    one after the other they are the file, none is empty, and none has
    more than the 127 characters that fit the buffer of 128. *)
Theorem lines_fit_buffer stream :
  fold_right append "" (file_lines stream) = stream /\
  Forall (fun line => (1 <= String.length line <= 127)%nat)
    (file_lines stream).
Proof.
  split; [apply file_lines_cover|].
  unfold file_lines. generalize (String.length stream) as fuel.
  intros fuel. revert stream.
  induction fuel as [|fuel IH]; intros stream; [constructor|].
  destruct stream as [|c stream]; [constructor|].
  cbn [lines_from fgets]. change (128 - 1)%nat with 127%nat.
  pose proof (read_line_length 127 (String c stream)) as Hmax.
  pose proof (read_line_nonempty 126 c stream) as Hmin.
  destruct (read_line 127 (String c stream)) as [line rest].
  cbn [fst] in Hmax, Hmin. constructor; [lia | apply IH].
Qed.

(** ** From kilobytes to bytes *)

(** X18.  The number [N] of a labelled line becomes [N * 1024] bytes when
    that fits [unsigned long]; a larger product is reduced modulo [2^w],
    not held at the largest value. *)
Theorem line_in_bytes w label ws ds tail :
  In label labels ->
  all_chars Libc.isspace ws = true ->
  ds <> "" ->
  all_chars Libc.isdigit ds = true ->
  Libc.starts_with_digit tail = false ->
  let N := decimal_value ds in
  let bytes :=
    to_bytes w (Some (field w (label ++ ws ++ ds ++ tail) label)) in
  bytes = Defined ((Z.min N (Libc.ULONG_MAX w) * 1024) mod 2 ^ w) /\
  (N * 1024 < 2 ^ w -> bytes = Defined (N * 1024)).
Proof.
  intros Hin Hws Hne Hds Htail N bytes.
  assert (E : bytes
              = Defined ((Z.min N (Libc.ULONG_MAX w) * 1024) mod 2 ^ w)).
  { unfold bytes, to_bytes, field. cbn [read bind].
    rewrite advance_append, strtoul_leading_spaces by exact Hws.
    rewrite strtoul_digits by assumption. reflexivity. }
  split; [exact E|].
  intros Hfit. rewrite E.
  pose proof (decimal_value_nonneg _ Hds) as HN. fold N in HN.
  unfold Libc.ULONG_MAX. rewrite Z.min_l by lia.
  rewrite small_mod by lia. reflexivity.
Qed.

Lemma line_in_bytes_witness :
  let bytes :=
    to_bytes 32
      (Some (field 32 ("MemTotal:" ++ " " ++ "4194304" ++ " kB")
               "MemTotal:")) in
  bytes
  = Defined ((Z.min (decimal_value "4194304") (Libc.ULONG_MAX 32) * 1024)
             mod 2 ^ 32) /\
  (decimal_value "4194304" * 1024 < 2 ^ 32 ->
   bytes = Defined (decimal_value "4194304" * 1024)).
Proof.
  apply (line_in_bytes 32 "MemTotal:" " " "4194304" " kB");
    [unfold labels; cbn [In]; tauto | reflexivity | discriminate
    | reflexivity | reflexivity].
Defined.
